(** * cloudmetrics-pipeline: scene discovery, scene extraction and manifest

    A shallow embedding of [cloudmetrics_pipeline/find_scenes.py] and
    [cloudmetrics_pipeline/masks.py].  Python exceptions are values of
    [exn]; code that touches the disk runs in the monad [io], a state
    monad over a model of the filesystem whose computations end in a
    value or in a raised exception. *)

From Stdlib Require Import Ascii String Floats Uint63 DecimalString.
From stdpp Require Import gmap strings list fin_maps sorting.

Local Open Scope string_scope.
Local Open Scope nat_scope.
Local Open Scope list_scope.
Local Open Scope stdpp_scope.

(** ** Exceptions and results *)

Inductive exn : Type :=
| KeyExistsException (key : string)   (* NoReplaceDict.KeyExistsException *)
| FileNotFoundError (msg : string)
| NotImplementedError (msg : string)
| AttributeError (msg : string)
| ValueError (msg : string)
| OSError (msg : string).             (* FileExistsError, IsADirectoryError, ... *)

Inductive result (A : Type) : Type :=
| Ok (a : A)
| Raise (e : exn).
Arguments Ok {A} a.
Arguments Raise {A} e.

(** ** Paths (pathlib.Path)

    A path is the list of its parts, outermost first, as [Path.parts]
    gives them: an absolute path starts with its root part, ["/"] or
    ["//"]; the path without parts is the current directory.  A part
    [".."] is kept as it stands, the disk of the model does not follow it. *)

Abbreviation Path := (list string).

Module PurePath.

(* Path.name: the final component *)
Definition name (p : Path) : string := List.last p "".

(* Path.parent *)
Definition parent (p : Path) : Path := removelast p.

(* the / operator with a right operand that is one part of a path, as
   "scenes" and "<scene_id>.nc" are; [joinpath] is the operator with any
   str on the right *)
Definition div (p : Path) (s : string) : Path := p ++ [s].

(* the runs of characters of [s] between its separators *)
Fixpoint split_sep (s : string) : list string :=
  match s with
  | EmptyString => [EmptyString]
  | String c s' =>
      if Ascii.eqb c "/" then EmptyString :: split_sep s'
      else match split_sep s' with
           | [] => [String c EmptyString]
           | part :: parts => String c part :: parts
           end
  end.

(* the parts of a str after its root: empty runs (doubled and trailing
   separators) and "." are dropped, ".." is kept *)
Definition parts_of (s : string) : list string :=
  filter (fun part => part ≠ "" ∧ part ≠ ".") (split_sep s).

(* the root part of an absolute str: exactly two leading separators are
   kept as "//", any other number is "/" *)
Definition root_of (s : string) : option string :=
  match s with
  | String "/" (String "/" (String "/" _)) => Some "/"
  | String "/" (String "/" _) => Some "//"
  | String "/" _ => Some "/"
  | _ => None
  end.

(* path / s for any str [s]: the parts of [s] are appended; an absolute
   [s] replaces the path *)
Definition joinpath (p : Path) (s : string) : Path :=
  match root_of s with
  | Some root => root :: parts_of s
  | None => p ++ parts_of s
  end.

(* [s] is one part of a path by itself: a relative name without a
   separator, not empty, neither "." nor ".." *)
Definition plain_name (s : string) : bool :=
  bool_decide (root_of s = None ∧ parts_of s = [s] ∧ s ≠ "..").

(* str.rfind(c): index of the last occurrence of [c], if any *)
Fixpoint rfind (c : ascii) (s : string) : option nat :=
  match s with
  | EmptyString => None
  | String a s' =>
      match rfind c s' with
      | Some i => Some (S i)
      | None => if Ascii.eqb a c then Some 0 else None
      end
  end.

(* Path.stem: the final component without its last suffix;
     i = name.rfind('.')
     name[:i] if 0 < i < len(name) - 1 else name *)
Definition stem (p : Path) : string :=
  let name := name p in
  match rfind "." name with
  | Some i =>
      if (0 <? i) && (i <? String.length name - 1)
      then substring 0 i name
      else name
  | None => name
  end.

(* str(path); the path without parts is the current directory, and no
   separator follows a root part *)
Definition str (p : Path) : string :=
  match p with
  | [] => "."
  | part :: parts =>
      if bool_decide (part = "/" ∨ part = "//")
      then part +:+ String.concat "/" parts
      else String.concat "/" p
  end.

End PurePath.

Infix "</>" := PurePath.div (at level 40, left associativity).

(** ** Arrays (numpy.ndarray)

    An array is a scalar item or a sequence of sub-arrays along its
    leading axis. *)

#[local] Set Warnings "-register-all".
Inductive ndarray (A : Type) : Type :=
| Item (x : A)
| Axis (xs : list (ndarray A)).
Arguments Item {A} x.
Arguments Axis {A} xs.

Fixpoint shape {A} (a : ndarray A) : list nat :=
  match a with
  | Item _ => []
  | Axis xs => length xs :: match xs with [] => [] | x :: _ => shape x end
  end.

(* element-wise application of [f] *)
Fixpoint nd_map {A B} (f : A -> B) (a : ndarray A) : ndarray B :=
  match a with
  | Item x => Item (f x)
  | Axis xs => Axis (map (nd_map f) xs)
  end.

(* a[i0, i1, ...] for a full index *)
Fixpoint nd_get {A} (a : ndarray A) (idx : list nat) : option A :=
  match a, idx with
  | Item x, [] => Some x
  | Axis xs, i :: idx' =>
      (fix nth (l : list (ndarray A)) (n : nat) : option A :=
         match l, n with
         | [], _ => None
         | y :: _, O => nd_get y idx'
         | _ :: l', S n' => nth l' n'
         end) xs i
  | _, _ => None
  end.

(** ** Time stamps and [strftime] *)

Record datetime : Type := mkDatetime {
  year : nat; month : nat; day : nat;
  hour : nat; minute : nat; second : nat
}.

#[global] Instance datetime_eq_dec : EqDecision datetime.
Proof. solve_decision. Defined.

(* the decimal digits of [n], padded with zeros on the left to [width] *)
Definition zfill (width : nat) (n : nat) : string :=
  let digits := NilZero.string_of_uint (Nat.to_uint n) in
  String.concat "" (replicate (width - String.length digits) "0") +:+ digits.

(* one conversion specification of the format *)
Definition directive (c : ascii) (t : datetime) : string :=
  if Ascii.eqb c "Y" then zfill 4 (year t)
  else if Ascii.eqb c "m" then zfill 2 (month t)
  else if Ascii.eqb c "d" then zfill 2 (day t)
  else if Ascii.eqb c "H" then zfill 2 (hour t)
  else if Ascii.eqb c "M" then zfill 2 (minute t)
  else if Ascii.eqb c "S" then zfill 2 (second t)
  else String "%" (String c "").

Fixpoint strftime (format : string) (t : datetime) : string :=
  match format with
  | EmptyString => ""
  | String a rest =>
      if Ascii.eqb a "%" then
        match rest with
        | String c rest' => directive c t +:+ strftime rest' t
        | EmptyString => "%"
        end
      else String a (strftime rest t)
  end.

(** ** Labeled arrays (xarray.DataArray)

    The values of an array are booleans, integers or floats.  The pipeline
    looks at two coordinates only: [scene_id] (labels) and [time]
    (time stamps), each running along the leading axis when present. *)

Inductive values : Type :=
| BoolValues (a : ndarray bool)
| IntValues (a : ndarray Z)
| FloatValues (a : ndarray float).

Record DataArray : Type := mkDataArray {
  da_values : values;
  coords_scene_id : option (list string);
  coords_time : option (list datetime)
}.

(* xr.DataArray(a): no coordinates *)
Definition DataArray_of (v : values) : DataArray :=
  {| da_values := v; coords_scene_id := None; coords_time := None |}.

(* [key in da]: DataArray.__contains__ tests membership among the VALUES
   of the array; boolean and numeric values never equal a str *)
Definition DataArray_contains (da : DataArray) (key : string) : bool := false.

(* positions along a coordinate that carry the label [v], counted from [i] *)
Fixpoint positions_from {A} `{EqDecision A} (i : nat) (labels : list A) (v : A)
  : list nat :=
  match labels with
  | [] => []
  | x :: labels' =>
      if decide (x = v) then i :: positions_from (S i) labels' v
      else positions_from (S i) labels' v
  end.

Definition positions {A} `{EqDecision A} (labels : list A) (v : A) : list nat :=
  positions_from 0 labels v.

(* indexing the leading axis: one position drops the axis, several keep it *)
Definition nd_take {A} (a : ndarray A) (pos : list nat) : ndarray A :=
  match a with
  | Item x => Item x
  | Axis xs =>
      match pos with
      | [i] => default (Axis []) (xs !! i)
      | _ => Axis (omap (fun i => xs !! i) pos)
      end
  end.

Definition values_take (v : values) (pos : list nat) : values :=
  match v with
  | BoolValues a => BoolValues (nd_take a pos)
  | IntValues a => IntValues (nd_take a pos)
  | FloatValues a => FloatValues (nd_take a pos)
  end.

(* da.sel(scene_id=v) *)
Definition sel_scene_id (da : DataArray) (v : string) : DataArray :=
  let pos := positions (default [] (coords_scene_id da)) v in
  {| da_values := values_take (da_values da) pos;
     coords_scene_id := Some (omap (fun i => default [] (coords_scene_id da) !! i) pos);
     coords_time := coords_time da |}.

(* da.sel(time=t) *)
Definition sel_time (da : DataArray) (t : datetime) : DataArray :=
  let pos := positions (default [] (coords_time da)) t in
  {| da_values := values_take (da_values da) pos;
     coords_scene_id := coords_scene_id da;
     coords_time := Some (omap (fun i => default [] (coords_time da) !! i) pos) |}.

(** ** YAML documents

    What [yaml.dump] leaves in a file: one mapping, written in flow style
    ([{key: value, ...}]) or in block style (one [key: value] line per
    pair), with its (key, value) scalar pairs in document order.  The
    character-level presentation of scalars (quoting, escapes, folding)
    is PyYAML's and is not modelled. *)

Record yaml_mapping : Type := mkYaml {
  flow_style : bool;
  items : list (string * string)
}.

(** ** The filesystem

    The entries of the disk in directory-listing order; the current
    directory [[]] is always a directory. *)

Inductive file_data : Type :=
| ImageFile (image : ndarray Z)     (* a raster image that decodes to [image] *)
| NetcdfFile (da : DataArray)       (* a netCDF file holding one variable *)
| YamlFile (doc : yaml_mapping)
| OtherFile (raw : string).

Inductive node : Type :=
| Dir
| File (data : file_data).

Abbreviation filesystem := (list (Path * node)).

Fixpoint fs_lookup (fs : filesystem) (p : Path) : option node :=
  match fs with
  | [] => None
  | (q, n) :: fs' => if decide (q = p) then Some n else fs_lookup fs' p
  end.

(* create or replace the entry at [p], keeping its place in the listing *)
Fixpoint fs_store (fs : filesystem) (p : Path) (n : node) : filesystem :=
  match fs with
  | [] => [(p, n)]
  | (q, m) :: fs' =>
      if decide (q = p) then (p, n) :: fs' else (q, m) :: fs_store fs' p n
  end.

Definition is_dir (fs : filesystem) (p : Path) : bool :=
  match p, fs_lookup fs p with
  | [], _ => true
  | _, Some Dir => true
  | _, _ => false
  end.

Definition is_file (fs : filesystem) (p : Path) : bool :=
  match p, fs_lookup fs p with
  | [], _ => false
  | _, Some (File _) => true
  | _, _ => false
  end.

(* the entries directly inside directory [d], in listing order *)
Definition scandir (fs : filesystem) (d : Path) : list Path :=
  filter (fun p => p ≠ [] ∧ PurePath.parent p = d) fs.*1.

(* fnmatch on one path component: [*] matches any run of characters,
   every other character matches itself (the patterns of the module are
   [*.] followed by letters and digits) *)
Fixpoint fnmatch (pat : list ascii) : list ascii -> bool :=
  match pat with
  | [] => fun name => match name with [] => true | _ => false end
  | c :: pat' =>
      if Ascii.eqb c "*" then
        fix star (name : list ascii) : bool :=
          fnmatch pat' name
          || match name with [] => false | _ :: name' => star name' end
      else
        fun name =>
          match name with
          | [] => false
          | a :: name' => Ascii.eqb a c && fnmatch pat' name'
          end
  end.

(* list(Path.glob(pattern)) for a one-component pattern: not recursive *)
Definition glob (fs : filesystem) (d : Path) (pattern : string) : list Path :=
  filter (fun p => fnmatch (list_ascii_of_string pattern)
                           (list_ascii_of_string (PurePath.name p)) = true)
         (scandir fs d).

(** ** The monad of disk operations *)

Definition io (A : Type) : Type := filesystem -> result A * filesystem.

#[global] Instance result_ret : MRet result := fun _ a => Ok a.
#[global] Instance result_bind : MBind result := fun _ _ f r =>
  match r with Ok a => f a | Raise e => Raise e end.
#[global] Instance result_fmap : FMap result := fun _ _ f r =>
  match r with Ok a => Ok (f a) | Raise e => Raise e end.

#[global] Instance io_ret : MRet io := fun _ a fs => (Ok a, fs).
#[global] Instance io_bind : MBind io := fun _ _ f m fs =>
  match m fs with
  | (Ok a, fs') => f a fs'
  | (Raise e, fs') => (Raise e, fs')
  end.

Definition raise {A} (e : exn) : io A := fun fs => (Raise e, fs).
Definition lift {A} (r : result A) : io A := fun fs => (r, fs).
Definition read_fs : io filesystem := fun fs => (Ok fs, fs).

(* [for x in xs: body] where the body updates a local object [s] *)
Fixpoint for_in {A S} (xs : list A) (body : A -> S -> io S) (s : S) : io S :=
  match xs with
  | [] => mret s
  | x :: xs' => s' ← body x s; for_in xs' body s'
  end.

(* a generator: what it yields, in order, until it stops or raises *)
Inductive generator (A : Type) : Type :=
| StopIteration
| Yield (a : A) (next : generator A)
| Throw (e : exn).
Arguments StopIteration {A}.
Arguments Yield {A} a next.
Arguments Throw {A} e.

(* [for a in g: body]: the body of one round runs before the generator
   is asked for the next item *)
Fixpoint for_gen {A S} (g : generator A) (body : A -> S -> io S) (s : S) : io S :=
  match g with
  | StopIteration => mret s
  | Yield a next => s' ← body a s; for_gen next body s'
  | Throw e => raise e
  end.

Fixpoint yielded {A} (g : generator A) : list A :=
  match g with
  | Yield a next => a :: yielded next
  | _ => []
  end.

(* every non-empty prefix of [p], shortest first, [p] included *)
Definition ancestors_and_self (p : Path) : list Path :=
  (fun n => take (S n) p) <$> seq 0 (length p).

(* one round of mkdir: create the directory unless it is there *)
Definition mkdir_step (fs : filesystem) (q : Path) : filesystem :=
  if is_dir fs q then fs else fs_store fs q Dir.

(* Path.mkdir(exist_ok=True, parents=True): a regular file in the way is
   an error; otherwise the missing directories are created, outermost
   first *)
Definition mkdir (p : Path) : io unit := fun fs =>
  if existsb (is_file fs) (ancestors_and_self p)
  then (Raise (OSError "FileExistsError"), fs)
  else (Ok (), foldl mkdir_step fs (ancestors_and_self p)).

(* opening [p] for writing and storing [data] there: the parent has to
   be a directory and [p] must not be one; prior content is replaced *)
Definition write_file (p : Path) (data : file_data) : io unit := fun fs =>
  if negb (is_dir fs (PurePath.parent p))
  then (Raise (FileNotFoundError (PurePath.str p)), fs)
  else if is_dir fs p
  then (Raise (OSError "IsADirectoryError"), fs)
  else (Ok (), fs_store fs p (File data)).

(* skimage.io.imread *)
Definition imread (p : Path) : io (ndarray Z) := fun fs =>
  match fs_lookup fs p with
  | Some (File (ImageFile image)) => (Ok image, fs)
  | Some _ => (Raise (OSError "cannot identify image file"), fs)
  | None => (Raise (FileNotFoundError (PurePath.str p)), fs)
  end.

(* xr.open_dataarray *)
Definition open_dataarray (p : Path) : io DataArray := fun fs =>
  match fs_lookup fs p with
  | Some (File (NetcdfFile da)) => (Ok da, fs)
  | Some _ => (Raise (OSError "unknown file format"), fs)
  | None => (Raise (FileNotFoundError (PurePath.str p)), fs)
  end.

(* DataArray.to_netcdf *)
Definition to_netcdf (da : DataArray) (p : Path) : io unit :=
  write_file p (NetcdfFile da).

(** * find_scenes.py *)

Definition FILETYPES : list (string * list string) :=
  [("image", ["png"; "jpg"; "jpeg"]); ("netcdf", ["nc"; "nc4"])].

(* every recognized extension, in declared order *)
Definition extensions : list string := mjoin FILETYPES.*2.

Definition DATETIME_FORMAT : string := "%Y%d%m%H%M".
Definition SCENE_PATH : string := "scenes".
Definition SCENE_DB_FILENAME : string := "scene_ids.yml".

(** ** class NoReplaceDict(dict) *)

Module NoReplaceDict.
Section methods.
Context {V : Type}.

(* [key in self] *)
Definition contains (self : gmap string V) (key : string) : bool :=
  bool_decide (is_Some (self !! key)).

(* the overridden method; the second component is the object after
   the call *)
Definition __setitem__ (self : gmap string V) (key : string) (val : V)
  : result unit * gmap string V :=
  if contains self key
  then (Raise (KeyExistsException key), self)
  else (Ok (), <[key := val]> self).

(* [update] is inherited from dict: it stores every item of [other]
   without going through the overridden [__setitem__] *)
Definition update (self other : gmap string V) : gmap string V :=
  other ∪ self.
End methods.
End NoReplaceDict.

(* [scenes[key] = val] inside a disk computation: the statement either
   raises or leaves the updated object *)
Definition setitem {V} (scenes : gmap string V) (key : string) (val : V)
  : io (gmap string V) :=
  match NoReplaceDict.__setitem__ scenes key val with
  | (Ok _, scenes') => mret scenes'
  | (Raise e, _) => raise e
  end.

(** ** Attribute access

    The two kinds of object whose [.parent] the module asks for. *)

Inductive pyobj : Type :=
| PyStr (s : string)
| PyPath (p : Path).

Definition getattr_parent (o : pyobj) : result Path :=
  match o with
  | PyPath p => Ok (PurePath.parent p)
  | PyStr _ => Raise (AttributeError "'str' object has no attribute 'parent'")
  end.

(** ** _make_netcdf_scenes *)

(* array.item() *)
Definition item {A} (a : list A) : result A :=
  match a with
  | [x] => Ok x
  | _ => Raise (ValueError "can only convert an array of size 1 to a Python scalar")
  end.

(* the [for time in da.time.values] loop of the generator *)
Fixpoint _time_scenes (filepath : Path) (da : DataArray)
    (times : list datetime) (times_str : list string)
    (todo : list datetime) : generator (string * DataArray) :=
  match todo with
  | [] => StopIteration
  | time :: todo' =>
      (* times_str.sel(time=time).item() *)
      match item (omap (fun i => times_str !! i) (positions times time)) with
      | Raise e => Throw e
      | Ok time_str =>
          let filename_stem := PurePath.stem filepath in
          let scene_id := filename_stem +:+ "__" +:+ time_str in
          Yield (scene_id, sel_time da time)
                (_time_scenes filepath da times times_str todo')
      end
  end.

Definition _individual_scenes_in_file (filepath : Path) (da : DataArray)
  : generator (string * DataArray) :=
  match coords_scene_id da with
  | Some scene_ids =>                           (* "scene_id" in da.coords *)
      foldr (fun scene_id next => Yield (scene_id, sel_scene_id da scene_id) next)
            StopIteration scene_ids
  | None =>
      if DataArray_contains da "time" || bool_decide (is_Some (coords_time da))
      then
        match coords_time da with
        | Some times =>
            let times_str := strftime DATETIME_FORMAT <$> times in
            _time_scenes filepath da times times_str times
        | None =>
            Throw (AttributeError "'DataArray' object has no attribute 'time'")
        end
      else
        Throw (NotImplementedError
          "When using a netCDF file as source it should eitherhave a `scene_id` or `time` 1D coordinate defined")
  end.

(* the body of the loop over the scenes of one file *)
Definition _netcdf_scene_body (filepath : Path)
    (scene : string * DataArray) (scenes : gmap string Path)
  : io (gmap string Path) :=
  let '(scene_id, da_scene) := scene in
  let filename_scene := scene_id +:+ ".nc" in
  let filepath_scene := PurePath.parent filepath </> SCENE_PATH </> filename_scene in
  (* filename_scene.parent.mkdir(exist_ok=True, parents=True) *)
  dir ← lift (getattr_parent (PyStr filename_scene));
  mkdir dir;;
  to_netcdf da_scene filepath_scene;;
  setitem scenes scene_id filepath_scene.

Definition _make_netcdf_scenes (filepath : Path) : io (gmap string Path) :=
  da ← open_dataarray filepath;
  for_gen (_individual_scenes_in_file filepath da) (_netcdf_scene_body filepath) ∅.

(* the body of [for filepath in filepaths] for netCDF files:
   scenes.update(_make_netcdf_scenes(filepath=filepath)) *)
Definition _netcdf_body (filepath : Path) (scenes : gmap string Path)
  : io (gmap string Path) :=
  new ← _make_netcdf_scenes filepath;
  mret (NoReplaceDict.update scenes new).

(** ** Discovery: the first loop of make_scenes *)

(* [d.setdefault(key, [])] followed by [+=] on the list it returns: the
   list held by the dict is extended in place *)
Fixpoint setdefault_extend (d : list (string * list Path)) (key : string)
    (more : list Path) : list (string * list Path) :=
  match d with
  | [] => [(key, more)]
  | (k, v) :: d' =>
      if decide (k = key) then (k, v ++ more) :: d'
      else (k, v) :: setdefault_extend d' key more
  end.

(* d.get(key) on an insertion-ordered dict *)
Fixpoint dict_get {V} (d : list (string * V)) (key : string) : option V :=
  match d with
  | [] => None
  | (k, v) :: d' => if decide (k = key) then Some v else dict_get d' key
  end.

Definition discover_in (filetypes : list (string * list string))
    (fs : filesystem) (data_path : Path) : list (string * list Path) :=
  foldl (fun d '(filetype, extensions) =>
           foldl (fun d file_ext =>
                    let filepaths_ext := glob fs data_path ("*." +:+ file_ext) in
                    if 0 <? length filepaths_ext
                    then setdefault_extend d filetype filepaths_ext
                    else d)
                 d extensions)
        [] filetypes.

Definition filepaths_by_filetype : filesystem -> Path -> list (string * list Path) :=
  discover_in FILETYPES.

(** ** yaml.dump and yaml.load on a mapping of strings *)

Definition key_le (x y : string * string) : Prop := String.leb x.1 y.1 = true.

#[global] Instance key_le_dec x y : Decision (key_le x y).
Proof. unfold key_le. apply _. Defined.

(* the representer sorts the items of a dict by key; the emitter writes
   a mapping without items as the flow mapping [{}] whatever style is
   asked for *)
Definition yaml_dump (data : gmap string string) (default_flow_style : bool)
  : yaml_mapping :=
  let items := merge_sort key_le (map_to_list data) in
  {| flow_style := default_flow_style || bool_decide (items = []);
     items := items |}.

(* the constructor inserts the pairs in document order *)
Definition yaml_load (doc : yaml_mapping) : gmap string string :=
  foldl (fun m kv => <[kv.1 := kv.2]> m) ∅ (items doc).

#[local] Set Warnings "-inexact-float".
Definition greyscale_threshold_default : float := 0.2%float.

Section pipeline.

(** skimage.color.rgb2gray: the luminance of an RGB array, or an error
    on an array it does not accept *)
Variable rgb2gray : values -> result (ndarray float).

(* [image_grey > greyscale_threshold], element by element *)
Definition threshold_mask (image_grey : ndarray float)
    (greyscale_threshold : float) : ndarray bool :=
  nd_map (fun g => (greyscale_threshold <? g)%float) image_grey.

(** ** _make_image_scene *)
Definition _make_image_scene (filepath : Path) (greyscale_threshold : float)
  : io (string * Path) :=
  let scene_id := PurePath.stem filepath in
  image ← imread filepath;
  image_grey ← lift (rgb2gray (IntValues image));
  let cloud_mask := threshold_mask image_grey greyscale_threshold in
  let da := DataArray_of (BoolValues cloud_mask) in
  let filepath_scene :=
    PurePath.parent filepath </> SCENE_PATH </> (scene_id +:+ ".nc") in
  mkdir (PurePath.parent filepath_scene);;
  to_netcdf da filepath_scene;;
  mret (scene_id, filepath_scene).

(** ** make_scenes *)

(* the body of [for filepath in filepaths] for images *)
Definition _image_body (filepath : Path) (scenes : gmap string Path)
  : io (gmap string Path) :=
  '(scene_id, filepath_scene) ←
    _make_image_scene filepath greyscale_threshold_default;
  setitem scenes scene_id filepath_scene.

(* the body of the loop over [filepaths_by_filetype.items()] *)
Definition _scenes_of_filetype (entry : string * list Path)
    (scenes : gmap string Path) : io (gmap string Path) :=
  let '(filetype, filepaths) := entry in
  if String.eqb filetype "image" then
    for_in filepaths _image_body scenes
  else if String.eqb filetype "netcdf" then
    for_in filepaths _netcdf_body scenes
  else raise (NotImplementedError filetype).

Definition make_scenes (data_path : Path) : io (gmap string string) :=
  fs ← read_fs;
  let filepaths_by_filetype := filepaths_by_filetype fs data_path in
  if length filepaths_by_filetype =? 0
  then raise (FileNotFoundError
                ("No valid source files found in `" +:+ PurePath.str data_path +:+ "`"))
  else
    scenes ← for_in filepaths_by_filetype _scenes_of_filetype ∅;
    (* a regular dict with the paths made into strings *)
    mret (PurePath.str <$> scenes).

(** ** produce_scene_ids *)
Definition produce_scene_ids (data_path : Path) (dst_filename : string)
  : io unit :=
  scenes ← make_scenes data_path;
  write_file (PurePath.joinpath (data_path </> SCENE_PATH) dst_filename)
             (YamlFile (yaml_dump scenes false)).

(** * masks.py *)

Definition rgb_greyscale_mask (da_scene : DataArray)
    (greyscale_threshold : float) : result DataArray :=
  image_grey ← rgb2gray (da_values da_scene);
  let cloud_mask := threshold_mask image_grey greyscale_threshold in
  let da_cloudmask := DataArray_of (BoolValues cloud_mask) in
  mret da_cloudmask.

End pipeline.

(** * Specification vocabulary *)

(* the object after the assignments [self[k] = v] for the pairs of [kvs],
   in order, each in a try block that swallows KeyExistsException *)
Fixpoint setitems {V} (self : gmap string V) (kvs : list (string * V))
  : gmap string V :=
  match kvs with
  | [] => self
  | (k, v) :: kvs' => setitems (NoReplaceDict.__setitem__ self k v).2 kvs'
  end.

(* the scene id the spec derives from a time stamp: the stem of the file
   name, two underscores, then year, day, month, hour and minute *)
Definition time_scene_id (filepath : Path) (t : datetime) : string :=
  PurePath.stem filepath +:+ "__"
  +:+ zfill 4 (year t) +:+ zfill 2 (day t) +:+ zfill 2 (month t)
  +:+ zfill 2 (hour t) +:+ zfill 2 (minute t).

(* where the scene of a source file goes: [scenes/<stem>.nc] beside it *)
Definition scene_path (filepath : Path) : Path :=
  PurePath.parent filepath </> SCENE_PATH </> (PurePath.stem filepath +:+ ".nc").

(** * Inputs for the worked examples *)

(** A luminance conversion to run the examples with: the weighted sum
    0.2125 R + 0.7154 G + 0.0721 B of each pixel of a rows x columns x 3
    array, integer channels scaled by 1/255.  The theorems below hold for
    every conversion. *)

Definition luma (r g b : float) : float :=
  (0.2125 * r + 0.7154 * g + 0.0721 * b)%float.

Definition pixel_luma {A} (channel : A -> float) (pixel : ndarray A)
  : result (ndarray float) :=
  match pixel with
  | Axis [Item r; Item g; Item b] => Ok (Item (luma (channel r) (channel g) (channel b)))
  | _ => Raise (ValueError "the input array must have size 3 along the channel axis")
  end.

Definition sequence {A} (rs : list (result A)) : result (list A) :=
  foldr (fun r acc => x ← r; xs ← acc; mret (x :: xs)) (Ok []) rs.

Definition image_luma {A} (channel : A -> float) (image : ndarray A)
  : result (ndarray float) :=
  match image with
  | Axis rows =>
      Axis <$> sequence
        ((fun row =>
            match row with
            | Axis pixels => Axis <$> sequence (pixel_luma channel <$> pixels)
            | Item _ => Raise (ValueError "not an RGB image")
            end) <$> rows)
  | Item _ => Raise (ValueError "not an RGB image")
  end.

Definition uint8_to_float (z : Z) : float :=
  (PrimFloat.of_uint63 (Uint63.of_Z z) / 255)%float.

Definition rgb2gray_luma (v : values) : result (ndarray float) :=
  match v with
  | IntValues a => image_luma uint8_to_float a
  | FloatValues a => image_luma id a
  | BoolValues _ => Raise (ValueError "not an RGB image")
  end.

(* the file grid.nc: one field at the time stamp 2021-03-04T05:06:00 *)
Definition da_grid : DataArray :=
  {| da_values := FloatValues (Axis [Axis [Axis [Item 1%float; Item 2%float]]]);
     coords_scene_id := None;
     coords_time := Some [mkDatetime 2021 3 4 5 6 0] |}.

(* two fields half a minute apart *)
Definition da_half_minute : DataArray :=
  {| da_values := FloatValues (Axis [Axis [Axis [Item 1%float]]; Axis [Axis [Item 2%float]]]);
     coords_scene_id := None;
     coords_time := Some [mkDatetime 2021 3 4 5 6 0; mkDatetime 2021 3 4 5 6 30] |}.

(* a netCDF file whose scene_id coordinate is empty, beside an existing
   scenes directory *)
Definition da_no_scene : DataArray :=
  {| da_values := FloatValues (Axis []);
     coords_scene_id := Some [];
     coords_time := None |}.

Definition fs_no_scene : filesystem :=
  [(["data"], Dir);
   (["data"; "empty.nc"], File (NetcdfFile da_no_scene));
   (["data"; "scenes"], Dir)].

(* a netCDF file with the coordinate scene_id = ["a", "b"] *)
Definition da_ab : DataArray :=
  {| da_values := FloatValues (Axis [Axis [Axis [Item 1%float]]; Axis [Axis [Item 2%float]]]);
     coords_scene_id := Some ["a"; "b"];
     coords_time := None |}.

Definition fs_ab : filesystem :=
  [(["data"], Dir); (["data"; "cube.nc"], File (NetcdfFile da_ab))].

(* a netCDF file with one scene, labelled "x" *)
Definition da_x : DataArray :=
  {| da_values := FloatValues (Axis [Axis [Axis [Item 1%float]]]);
     coords_scene_id := Some ["x"];
     coords_time := None |}.

(* two files that each produce the scene id "x" *)
Definition fs_xx : filesystem :=
  [(["data"], Dir);
   (["data"; "a.nc"], File (NetcdfFile da_x));
   (["data"; "b.nc"], File (NetcdfFile da_x))].

(* a netCDF file without coordinates *)
Definition da_bare : DataArray :=
  DataArray_of (FloatValues (Axis [Axis [Item 1%float]])).

Definition fs_bare : filesystem :=
  [(["data"], Dir); (["data"; "bare.nc"], File (NetcdfFile da_bare))].

(* a 1 x 2 image: a dark pixel and a bright pixel *)
Definition two_pixels : ndarray Z :=
  Axis [Axis [Axis [Item 10; Item 20; Item 30]; Axis [Item 200; Item 220; Item 240]]]%Z.

Definition fs_foo : filesystem :=
  [(["data"], Dir); (["data"; "foo.png"], File (ImageFile two_pixels))].

(* a 1 x 2 image with an alpha channel: four values per pixel *)
Definition two_pixels_rgba : ndarray Z :=
  Axis [Axis [Axis [Item 10; Item 20; Item 30; Item 255];
              Axis [Item 200; Item 220; Item 240; Item 255]]]%Z.

Definition fs_rgba : filesystem :=
  [(["data"], Dir); (["data"; "foo.png"], File (ImageFile two_pixels_rgba))].

(* a directory with images, an array file, other files and a
   sub-directory; another directory beside it *)
Definition fs_mixed : filesystem :=
  [(["data"], Dir);
   (["data"; "b.jpg"], File (ImageFile two_pixels));
   (["data"; "a.png"], File (ImageFile two_pixels));
   (["data"; "notes.txt"], File (OtherFile "to do"));
   (["data"; "c.nc4"], File (NetcdfFile da_bare));
   (["data"; "scenes"], Dir);
   (["data"; "scenes"; "old.nc"], File (NetcdfFile da_bare));
   (["other"], Dir);
   (["other"; "z.png"], File (ImageFile two_pixels))].

(* two images, a netCDF file without scenes and a file of another kind *)
Definition fs_album : filesystem :=
  [(["data"], Dir);
   (["data"; "b.jpg"], File (ImageFile two_pixels));
   (["data"; "a.png"], File (ImageFile two_pixels));
   (["data"; "notes.txt"], File (OtherFile "to do"));
   (["data"; "empty.nc"], File (NetcdfFile da_no_scene))].

(* a directory without a recognized file *)
Definition fs_notes : filesystem :=
  [(["data"], Dir);
   (["data"; "notes.txt"], File (OtherFile "to do"));
   (["data"; "scenes"], Dir)].

(* two images with the same stem *)
Definition fs_foo_twice : filesystem :=
  [(["data"], Dir);
   (["data"; "foo.png"], File (ImageFile two_pixels));
   (["data"; "foo.jpg"], File (ImageFile two_pixels))].

(** * The model at work *)

Example shape_2x3 :
  shape (Axis [Axis [Item 1; Item 2; Item 3]; Axis [Item 4; Item 5; Item 6]]) = [2; 3].
Proof. reflexivity. Qed.

Example nd_get_1_2 :
  nd_get (Axis [Axis [Item 1; Item 2; Item 3]; Axis [Item 4; Item 5; Item 6]]) [1; 2]
  = Some 6.
Proof. reflexivity. Qed.

Example stem_foo_png : PurePath.stem ["data"; "foo.png"] = "foo".
Proof. reflexivity. Qed.
Example stem_two_suffixes : PurePath.stem ["a.b.png"] = "a.b".
Proof. reflexivity. Qed.
Example stem_dotfile : PurePath.stem [".png"] = ".png".
Proof. reflexivity. Qed.
Example joinpath_name :
  PurePath.joinpath ["data"; "scenes"] "scene_ids.yml" = ["data"; "scenes"; "scene_ids.yml"].
Proof. reflexivity. Qed.
Example joinpath_trailing_separator :
  PurePath.joinpath ["data"; "scenes"] "foo.nc/" = ["data"; "scenes"; "foo.nc"].
Proof. reflexivity. Qed.
Example joinpath_separators :
  PurePath.joinpath ["data"; "scenes"] "./a//b" = ["data"; "scenes"; "a"; "b"].
Proof. reflexivity. Qed.
Example joinpath_dotdot :
  PurePath.joinpath ["data"; "scenes"] "../foo.png" = ["data"; "scenes"; ".."; "foo.png"].
Proof. reflexivity. Qed.
Example joinpath_absolute :
  PurePath.joinpath ["data"; "scenes"] "/tmp/ids.yml" = ["/"; "tmp"; "ids.yml"].
Proof. reflexivity. Qed.
Example str_absolute : PurePath.str ["/"; "tmp"; "ids.yml"] = "/tmp/ids.yml".
Proof. reflexivity. Qed.
Example str_relative : PurePath.str ["data"; "scenes"; "foo.nc"] = "data/scenes/foo.nc".
Proof. reflexivity. Qed.
Example plain_name_examples :
  PurePath.plain_name <$> ["scene_ids.yml"; "foo.nc/"; "../foo.png"; "/tmp/ids.yml"; ""; ".."]
  = [true; false; false; false; false; false].
Proof. reflexivity. Qed.
Example yaml_dump_block :
  yaml_dump {["b" := "data/scenes/b.nc"; "a" := "data/scenes/a.nc"]} false
  = {| flow_style := false;
       items := [("a", "data/scenes/a.nc"); ("b", "data/scenes/b.nc")] |}.
Proof. reflexivity. Qed.
Example yaml_dump_empty : yaml_dump ∅ false = {| flow_style := true; items := [] |}.
Proof. reflexivity. Qed.
Example zfill_7 : zfill 2 7 = "07".
Proof. reflexivity. Qed.
Example strftime_iso :
  strftime "%Y-%m-%dT%H:%M:%S" (mkDatetime 2021 3 4 5 6 0) = "2021-03-04T05:06:00".
Proof. reflexivity. Qed.
Example positions_ex : positions ["a"; "b"; "a"] "a" = [0; 2].
Proof. reflexivity. Qed.
Example fnmatch_png : fnmatch (list_ascii_of_string "*.png") (list_ascii_of_string "foo.png") = true.
Proof. reflexivity. Qed.
Example fnmatch_png_no : fnmatch (list_ascii_of_string "*.png") (list_ascii_of_string "foo.png.txt") = false.
Proof. reflexivity. Qed.
Example ancestors_ex : ancestors_and_self ["a"; "b"; "c"] = [["a"]; ["a"; "b"]; ["a"; "b"; "c"]].
Proof. reflexivity. Qed.
Example mkdir_ex : mkdir ["a"; "b"] [(["a"; "x.png"], File (OtherFile ""))]
  = (Ok (), [(["a"; "x.png"], File (OtherFile "")); (["a"], Dir); (["a"; "b"], Dir)]).
Proof. reflexivity. Qed.

(** * Properties *)

(** ** Running disk computations *)

Lemma run_bind {A B} (m : io A) (f : A -> io B) fs :
  (m ≫= f) fs =
  match m fs with
  | (Ok a, fs') => f a fs'
  | (Raise e, fs') => (Raise e, fs')
  end.
Proof. reflexivity. Qed.

Lemma run_bind_Ok {A B} (m : io A) (f : A -> io B) fs a fs' :
  m fs = (Ok a, fs') -> (m ≫= f) fs = f a fs'.
Proof. intros H. rewrite run_bind, H. reflexivity. Qed.

Lemma run_bind_Raise {A B} (m : io A) (f : A -> io B) fs e fs' :
  m fs = (Raise e, fs') -> (m ≫= f) fs = (Raise e, fs').
Proof. intros H. rewrite run_bind, H. reflexivity. Qed.

Lemma for_in_app {A S} (xs ys : list A) (body : A -> S -> io S) s fs :
  for_in (xs ++ ys) body s fs =
  (s' ← for_in xs body s; for_in ys body s') fs.
Proof.
  revert s fs. induction xs as [|x xs IH]; intros s fs; simpl.
  - reflexivity.
  - rewrite !run_bind. destruct (body x s fs) as [[s'|e] fs']; [|reflexivity].
    rewrite IH. reflexivity.
Qed.

(* an exception raised by one round of a loop ends the loop *)
Lemma for_in_raise {A S} (pre : list A) x (post : list A)
    (body : A -> S -> io S) s0 fs0 s fs e fs' :
  for_in pre body s0 fs0 = (Ok s, fs) ->
  body x s fs = (Raise e, fs') ->
  for_in (pre ++ x :: post) body s0 fs0 = (Raise e, fs').
Proof.
  intros Hpre Hx. rewrite for_in_app, (run_bind_Ok _ _ _ _ _ Hpre). simpl.
  apply run_bind_Raise, Hx.
Qed.

(** ** NoReplaceDict *)

Section no_replace_dict.
Context {V : Type}.
Implicit Types (self : gmap string V) (key : string) (val : V).

Lemma setitem_present self key val :
  is_Some (self !! key) ->
  NoReplaceDict.__setitem__ self key val = (Raise (KeyExistsException key), self).
Proof.
  intros H. unfold NoReplaceDict.__setitem__, NoReplaceDict.contains.
  rewrite bool_decide_eq_true_2; done.
Qed.

Lemma setitem_absent self key val :
  self !! key = None ->
  NoReplaceDict.__setitem__ self key val = (Ok (), <[key := val]> self).
Proof.
  intros H. unfold NoReplaceDict.__setitem__, NoReplaceDict.contains.
  rewrite bool_decide_eq_false_2; [done|].
  rewrite H. by intros [? ?].
Qed.

(* a binding survives every later assignment *)
Lemma setitem_keeps self key val k v :
  self !! k = Some v ->
  (NoReplaceDict.__setitem__ self key val).2 !! k = Some v.
Proof.
  intros Hk. destruct (self !! key) as [w|] eqn:Hkey.
  - rewrite setitem_present by eauto. done.
  - rewrite setitem_absent by done. simpl.
    rewrite lookup_insert_ne; [done|]. intros ->. congruence.
Qed.

(* ... and every sequence of assignments *)
Lemma setitems_keeps self kvs k v :
  self !! k = Some v -> setitems self kvs !! k = Some v.
Proof.
  revert self. induction kvs as [|[key val] kvs IH]; intros self Hk; simpl;
    [done|].
  by apply IH, setitem_keeps.
Qed.

(* the inherited [update] replaces the value of a key that is present *)
Lemma update_replaces self key val val' :
  NoReplaceDict.update (<[key := val]> self) {[key := val']} !! key = Some val'.
Proof.
  unfold NoReplaceDict.update.
  apply lookup_union_Some_l, lookup_singleton_eq.
Qed.
End no_replace_dict.

Example setitem_twice :
  NoReplaceDict.__setitem__ ({["x" := 1]} : gmap string nat) "x" 2
  = (Raise (KeyExistsException "x"), {["x" := 1]})
  ∧ NoReplaceDict.__setitem__ ({["x" := 1]} : gmap string nat) "y" 2
    = (Ok (), <["y" := 2]> {["x" := 1]}).
Proof. split; [reflexivity|]. by rewrite setitem_absent. Qed.

(** C10. On a NoReplaceDict, [self[key] = val] with [key] present raises
    KeyExistsException(key) and leaves the mapping as it was; with [key]
    absent it adds the binding of [key] to [val] and changes no other
    binding; so a binding that is present keeps its value through any
    sequence of [__setitem__] calls. *)
Theorem NoReplaceDict_setitem_spec {V} (self : gmap string V) (key : string) (val : V) :
  (is_Some (self !! key) ->
     NoReplaceDict.__setitem__ self key val = (Raise (KeyExistsException key), self))
  ∧ (self !! key = None ->
     ∃ self', NoReplaceDict.__setitem__ self key val = (Ok (), self')
       ∧ self' !! key = Some val
       ∧ ∀ k, k ≠ key -> self' !! k = self !! k)
  ∧ (∀ k v, self !! k = Some v ->
       (NoReplaceDict.__setitem__ self key val).2 !! k = Some v)
  ∧ (∀ k v kvs, self !! k = Some v -> setitems self kvs !! k = Some v).
Proof.
  split; [|split; [|split]].
  - apply setitem_present.
  - intros Hnone. exists (<[key := val]> self). split; [|split].
    + by apply setitem_absent.
    + apply lookup_insert_eq.
    + intros k Hk. by apply lookup_insert_ne.
  - intros k v. apply setitem_keeps.
  - intros k v kvs. apply setitems_keeps.
Qed.

(** ** Discovery *)

Lemma list_ascii_of_string_app (s1 s2 : string) :
  list_ascii_of_string (s1 +:+ s2) = list_ascii_of_string s1 ++ list_ascii_of_string s2.
Proof. induction s1 as [|a s1 IH]; simpl; [done|]. by rewrite IH. Qed.

Lemma list_ascii_of_string_inj (s1 s2 : string) :
  list_ascii_of_string s1 = list_ascii_of_string s2 -> s1 = s2.
Proof.
  intros H. rewrite <- (string_of_list_ascii_of_string s1), H.
  apply string_of_list_ascii_of_string.
Qed.

(* a pattern without [*] matches itself only *)
Lemma fnmatch_literal (lit name : list ascii) :
  Forall (fun c => Ascii.eqb c "*" = false) lit ->
  fnmatch lit name = true <-> name = lit.
Proof.
  intros Hlit. revert name.
  induction Hlit as [|c lit Hc _ IH]; intros [|a name]; simpl; try rewrite Hc;
    try (split; [discriminate|congruence]); try done.
  rewrite andb_true_iff, Ascii.eqb_eq, IH. split.
  - by intros [-> ->].
  - by intros [= -> ->].
Qed.

Lemma fnmatch_star (pat name : list ascii) :
  fnmatch ("*"%char :: pat) name = true
  <-> ∃ pre rest, name = pre ++ rest ∧ fnmatch pat rest = true.
Proof.
  change (fnmatch ("*"%char :: pat)) with
    (fix star (name : list ascii) : bool :=
       fnmatch pat name
       || match name with [] => false | _ :: name' => star name' end).
  induction name as [|a name IH].
  - rewrite orb_false_r. split.
    + intros H. by exists [], [].
    + intros (pre & rest & Heq & H). symmetry in Heq.
      apply app_eq_nil in Heq as [-> ->]. done.
  - rewrite orb_true_iff, IH. split.
    + intros [H|(pre & rest & -> & H)].
      * by exists [], (a :: name).
      * by exists (a :: pre), rest.
    + intros ([|b pre] & rest & Heq & H); simpl in Heq.
      * left. by subst.
      * right. injection Heq as -> ->. by exists pre, rest.
Qed.

(* [*.ext] matches the names of the form [base.ext] *)
Lemma fnmatch_star_dot (ext name : string) :
  Forall (fun c => Ascii.eqb c "*" = false) (list_ascii_of_string ext) ->
  fnmatch (list_ascii_of_string ("*." +:+ ext)) (list_ascii_of_string name) = true
  <-> ∃ base, name = base +:+ "." +:+ ext.
Proof.
  intros Hext.
  change (list_ascii_of_string ("*." +:+ ext))
    with ("*"%char :: list_ascii_of_string ("." +:+ ext)).
  rewrite fnmatch_star. split.
  - intros (pre & rest & Heq & H).
    apply fnmatch_literal in H; [|by constructor].
    exists (string_of_list_ascii pre). apply list_ascii_of_string_inj.
    rewrite list_ascii_of_string_app, list_ascii_of_string_of_list_ascii.
    congruence.
  - intros [base ->]. exists (list_ascii_of_string base), (list_ascii_of_string ("." +:+ ext)).
    split; [apply list_ascii_of_string_app|].
    apply fnmatch_literal; [by constructor|done].
Qed.

(* what a glob for one extension returns: the entries directly inside
   the directory whose name is [base.ext], in listing order *)
Lemma elem_of_glob fs d ext p :
  Forall (fun c => Ascii.eqb c "*" = false) (list_ascii_of_string ext) ->
  p ∈ glob fs d ("*." +:+ ext)
  <-> p ∈ fs.*1 ∧ p ≠ [] ∧ PurePath.parent p = d
      ∧ ∃ base, PurePath.name p = base +:+ "." +:+ ext.
Proof.
  intros Hext. unfold glob, scandir.
  rewrite !list_elem_of_filter, fnmatch_star_dot by done. tauto.
Qed.

Lemma extensions_eq : extensions = ["png"; "jpg"; "jpeg"; "nc"; "nc4"].
Proof. reflexivity. Qed.

Lemma extensions_literal ext :
  ext ∈ extensions ->
  Forall (fun c => Ascii.eqb c "*" = false) (list_ascii_of_string ext).
Proof.
  rewrite extensions_eq, !elem_of_cons, elem_of_nil.
  intros [->|[->|[->|[->|[->|[]]]]]]; repeat constructor.
Qed.

(* the dict that discovery builds, in closed form *)
Lemma filepaths_by_filetype_eq fs d :
  filepaths_by_filetype fs d =
  (let images := glob fs d "*.png" ++ glob fs d "*.jpg" ++ glob fs d "*.jpeg" in
   match images with [] => [] | _ => [("image", images)] end)
  ++ (let arrays := glob fs d "*.nc" ++ glob fs d "*.nc4" in
      match arrays with [] => [] | _ => [("netcdf", arrays)] end).
Proof.
  unfold filepaths_by_filetype, discover_in, FILETYPES. simpl foldl.
  change ("*." +:+ "png") with "*.png". change ("*." +:+ "jpg") with "*.jpg".
  change ("*." +:+ "jpeg") with "*.jpeg". change ("*." +:+ "nc") with "*.nc".
  change ("*." +:+ "nc4") with "*.nc4".
  destruct (glob fs d "*.png") as [|? ?], (glob fs d "*.jpg") as [|? ?],
    (glob fs d "*.jpeg") as [|? ?], (glob fs d "*.nc") as [|? ?],
    (glob fs d "*.nc4") as [|? ?]; simpl; rewrite ?app_nil_r, <- ?app_assoc;
    reflexivity.
Qed.

(* the matches of the image extensions *)
Lemma elem_of_image_matches fs data_path p :
  p ∈ glob fs data_path "*.png" ++ glob fs data_path "*.jpg" ++ glob fs data_path "*.jpeg"
  <-> p ∈ fs.*1 ∧ p ≠ [] ∧ PurePath.parent p = data_path
      ∧ ∃ base ext, ext ∈ ["png"; "jpg"; "jpeg"]
                    ∧ PurePath.name p = base +:+ "." +:+ ext.
Proof.
  rewrite !elem_of_app.
  change "*.png" with ("*." +:+ "png"). change "*.jpg" with ("*." +:+ "jpg").
  change "*.jpeg" with ("*." +:+ "jpeg").
  rewrite !elem_of_glob by (repeat constructor). split.
  - intros [H|[H|H]]; destruct H as (? & ? & ? & base & ?);
      repeat split; try done; eexists base, _; (split; [|done]); repeat constructor.
  - intros (? & ? & ? & base & ext & Hext & ?).
    rewrite !elem_of_cons, elem_of_nil in Hext.
    destruct Hext as [->|[->|[->|[]]]]; eauto 10.
Qed.

(* the matches of the netCDF extensions *)
Lemma elem_of_netcdf_matches fs data_path p :
  p ∈ glob fs data_path "*.nc" ++ glob fs data_path "*.nc4"
  <-> p ∈ fs.*1 ∧ p ≠ [] ∧ PurePath.parent p = data_path
      ∧ ∃ base ext, ext ∈ ["nc"; "nc4"]
                    ∧ PurePath.name p = base +:+ "." +:+ ext.
Proof.
  rewrite !elem_of_app.
  change "*.nc" with ("*." +:+ "nc"). change "*.nc4" with ("*." +:+ "nc4").
  rewrite !elem_of_glob by (repeat constructor). split.
  - intros [H|H]; destruct H as (? & ? & ? & base & ?);
      repeat split; try done; eexists base, _; (split; [|done]); repeat constructor.
  - intros (? & ? & ? & base & ext & Hext & ?).
    rewrite !elem_of_cons, elem_of_nil in Hext.
    destruct Hext as [->|[->|[]]]; eauto 10.
Qed.

(** C7. Discovery maps each category ("image"; "netcdf", the array-data
    category) to the entries directly inside the directory whose name
    matches one of the category's extensions: the matches of each
    extension in listing order, concatenated in the declared order of the
    extensions; a category without a match has no key at all, and there is
    no other key. *)
Theorem discovery_spec (fs : filesystem) (data_path : Path) :
  let found := filepaths_by_filetype fs data_path in
  let images := glob fs data_path "*.png" ++ glob fs data_path "*.jpg"
                ++ glob fs data_path "*.jpeg" in
  let arrays := glob fs data_path "*.nc" ++ glob fs data_path "*.nc4" in
  FILETYPES = [("image", ["png"; "jpg"; "jpeg"]); ("netcdf", ["nc"; "nc4"])]
  ∧ dict_get found "image" = (if decide (images = []) then None else Some images)
  ∧ dict_get found "netcdf" = (if decide (arrays = []) then None else Some arrays)
  ∧ (∀ filetype, filetype ≠ "image" -> filetype ≠ "netcdf" ->
       dict_get found filetype = None)
  ∧ (∀ p, p ∈ images <->
       p ∈ fs.*1 ∧ p ≠ [] ∧ PurePath.parent p = data_path
       ∧ ∃ base ext, ext ∈ ["png"; "jpg"; "jpeg"]
                     ∧ PurePath.name p = base +:+ "." +:+ ext)
  ∧ (∀ p, p ∈ arrays <->
       p ∈ fs.*1 ∧ p ≠ [] ∧ PurePath.parent p = data_path
       ∧ ∃ base ext, ext ∈ ["nc"; "nc4"]
                     ∧ PurePath.name p = base +:+ "." +:+ ext).
Proof.
  intros found images arrays. subst found.
  rewrite filepaths_by_filetype_eq. fold images arrays.
  split; [reflexivity|].
  split; [|split; [|split; [|split]]].
  - destruct images, arrays; reflexivity.
  - destruct images, arrays; reflexivity.
  - intros filetype H1 H2. destruct images, arrays; simpl;
      repeat case_decide; congruence.
  - apply elem_of_image_matches.
  - apply elem_of_netcdf_matches.
Qed.

Example discovery_mixed :
  filepaths_by_filetype fs_mixed ["data"]
  = [("image", [["data"; "a.png"]; ["data"; "b.jpg"]]);
     ("netcdf", [["data"; "c.nc4"]])].
Proof. reflexivity. Qed.

Example discovery_images_only :
  filepaths_by_filetype fs_foo_twice ["data"]
  = [("image", [["data"; "foo.png"]; ["data"; "foo.jpg"]])].
Proof. reflexivity. Qed.

Lemma glob_nil fs d ext :
  ext ∈ extensions ->
  (∀ p, p ∈ scandir fs d -> ¬ ∃ base, PurePath.name p = base +:+ "." +:+ ext) ->
  glob fs d ("*." +:+ ext) = [].
Proof.
  intros Hext Hno. apply elem_of_nil_inv. intros p.
  unfold glob. rewrite list_elem_of_filter.
  rewrite fnmatch_star_dot by by apply extensions_literal.
  intros [Hm Hp]. by apply (Hno p).
Qed.

Lemma filepaths_by_filetype_nil fs d :
  (∀ p ext, p ∈ scandir fs d -> ext ∈ extensions ->
     ¬ ∃ base, PurePath.name p = base +:+ "." +:+ ext) ->
  filepaths_by_filetype fs d = [].
Proof.
  intros Hno. rewrite filepaths_by_filetype_eq.
  change "*.png" with ("*." +:+ "png"). change "*.jpg" with ("*." +:+ "jpg").
  change "*.jpeg" with ("*." +:+ "jpeg").
  change "*.nc" with ("*." +:+ "nc"). change "*.nc4" with ("*." +:+ "nc4").
  rewrite !glob_nil; [done|..];
    first [ rewrite extensions_eq; repeat constructor
          | intros p Hp; apply Hno; [done|rewrite extensions_eq; repeat constructor] ].
Qed.

Lemma not_named_ext (name ext : string) :
  ext ∈ extensions ->
  fnmatch (list_ascii_of_string ("*." +:+ ext)) (list_ascii_of_string name) = false ->
  ¬ ∃ base, name = base +:+ "." +:+ ext.
Proof.
  intros Hext Hno Hnamed.
  apply (fnmatch_star_dot ext name) in Hnamed; [congruence|].
  by apply extensions_literal.
Qed.

(** C5. When no entry of the directory has a name of the form [base.ext]
    with [ext] one of png, jpg, jpeg, nc, nc4, the run fails with
    FileNotFoundError (the No-Input error), and the disk is as it was: the
    failure comes before any write. *)
Theorem no_input_error (rgb2gray : values -> result (ndarray float))
    (fs : filesystem) (data_path : Path) (dst_filename : string) :
  (∀ p ext, p ∈ scandir fs data_path ->
     ext ∈ ["png"; "jpg"; "jpeg"; "nc"; "nc4"] ->
     ¬ ∃ base, PurePath.name p = base +:+ "." +:+ ext) ->
  let error := FileNotFoundError
    ("No valid source files found in `" +:+ PurePath.str data_path +:+ "`") in
  make_scenes rgb2gray data_path fs = (Raise error, fs)
  ∧ produce_scene_ids rgb2gray data_path dst_filename fs = (Raise error, fs).
Proof.
  intros Hno error.
  assert (Hm : make_scenes rgb2gray data_path fs = (Raise error, fs)).
  { unfold make_scenes. rewrite run_bind. simpl.
    rewrite filepaths_by_filetype_nil by done. reflexivity. }
  split; [done|].
  unfold produce_scene_ids. by apply run_bind_Raise.
Qed.

Lemma no_input_error_witness :
  produce_scene_ids rgb2gray_luma ["data"] SCENE_DB_FILENAME fs_notes
  = (Raise (FileNotFoundError "No valid source files found in `data`"), fs_notes).
Proof.
  refine (proj2 (no_input_error rgb2gray_luma fs_notes ["data"] SCENE_DB_FILENAME _)).
  intros p ext Hp Hext. apply not_named_ext; [done|].
  change (p ∈ [["data"; "notes.txt"]; ["data"; "scenes"]]) in Hp.
  apply elem_of_cons in Hp as [->|Hp]; [|apply elem_of_cons in Hp as [->|Hp]];
    [..|by apply elem_of_nil in Hp];
    repeat (apply elem_of_cons in Hext as [->|Hext]; [reflexivity|]);
    by apply elem_of_nil in Hext.
Defined.

(** ** The filesystem *)

Lemma fs_lookup_store_eq fs p n : fs_lookup (fs_store fs p n) p = Some n.
Proof.
  induction fs as [|[q m] fs IH]; simpl.
  - by rewrite decide_True.
  - destruct (decide (q = p)) as [->|Hne]; simpl.
    + by rewrite decide_True.
    + by rewrite decide_False.
Qed.

Lemma fs_lookup_store_ne fs p q n :
  p ≠ q -> fs_lookup (fs_store fs p n) q = fs_lookup fs q.
Proof.
  intros Hpq. induction fs as [|[r m] fs IH]; simpl.
  - by rewrite decide_False.
  - destruct (decide (r = p)) as [->|Hne]; simpl.
    + by rewrite !decide_False.
    + destruct (decide (r = q)); done.
Qed.

Lemma is_dir_lookup fs fs' p :
  fs_lookup fs' p = fs_lookup fs p -> is_dir fs' p = is_dir fs p.
Proof. unfold is_dir. intros H. destruct p; [done|]. by rewrite H. Qed.

Lemma is_dir_store_Dir fs p : is_dir (fs_store fs p Dir) p = true.
Proof. unfold is_dir. destruct p; [done|]. by rewrite fs_lookup_store_eq. Qed.

Lemma is_dir_store_ne fs p q n :
  p ≠ q -> is_dir (fs_store fs p n) q = is_dir fs q.
Proof. intros H. by apply is_dir_lookup, fs_lookup_store_ne. Qed.

Lemma parent_div (p : Path) (s : string) : PurePath.parent (p </> s) = p.
Proof. apply removelast_last. Qed.

Lemma name_div (p : Path) (s : string) : PurePath.name (p </> s) = s.
Proof. apply last_last. Qed.

Lemma ancestors_and_self_length p q :
  q ∈ ancestors_and_self p -> length q <= length p.
Proof.
  unfold ancestors_and_self. rewrite list_elem_of_fmap.
  intros (n & -> & _). rewrite length_take. lia.
Qed.

Lemma self_in_ancestors_and_self (p : Path) (s : string) :
  p </> s ∈ ancestors_and_self (p </> s).
Proof.
  unfold ancestors_and_self, PurePath.div. rewrite list_elem_of_fmap.
  exists (length p). split.
  - rewrite take_ge; [done|]. rewrite length_app. simpl. lia.
  - rewrite elem_of_seq, length_app. simpl. lia.
Qed.

Lemma mkdir_step_self fs q : is_dir (mkdir_step fs q) q = true.
Proof.
  unfold mkdir_step. destruct (is_dir fs q) eqn:H; [done|].
  apply is_dir_store_Dir.
Qed.

Lemma mkdir_step_keeps fs q q' :
  is_dir fs q' = true -> is_dir (mkdir_step fs q) q' = true.
Proof.
  intros H. unfold mkdir_step. destruct (is_dir fs q) eqn:Hq; [done|].
  rewrite is_dir_store_ne; [done|]. intros ->. congruence.
Qed.

Lemma mkdir_step_other fs q q' :
  q ≠ q' -> fs_lookup (mkdir_step fs q) q' = fs_lookup fs q'.
Proof.
  intros H. unfold mkdir_step. destruct (is_dir fs q); [done|].
  by apply fs_lookup_store_ne.
Qed.

Lemma mkdir_steps_is_dir qs fs q :
  q ∈ qs ∨ is_dir fs q = true -> is_dir (foldl mkdir_step fs qs) q = true.
Proof.
  revert fs. induction qs as [|q' qs IH]; intros fs; simpl.
  - intros [H|H]; [by apply elem_of_nil in H|done].
  - intros [H|H]; apply IH.
    + apply elem_of_cons in H as [->|H]; [right; apply mkdir_step_self|by left].
    + right. by apply mkdir_step_keeps.
Qed.

Lemma mkdir_steps_other qs fs q :
  q ∉ qs -> fs_lookup (foldl mkdir_step fs qs) q = fs_lookup fs q.
Proof.
  revert fs. induction qs as [|q' qs IH]; intros fs Hq; simpl; [done|].
  apply not_elem_of_cons in Hq as [Hne Hq].
  rewrite IH by done. by apply mkdir_step_other.
Qed.

Lemma mkdir_Ok p fs :
  (∀ q, q ∈ ancestors_and_self p -> is_file fs q = false) ->
  mkdir p fs = (Ok (), foldl mkdir_step fs (ancestors_and_self p)).
Proof.
  intros Hfree. unfold mkdir.
  replace (existsb (is_file fs) (ancestors_and_self p)) with false; [done|].
  symmetry. apply not_true_is_false. rewrite existsb_exists.
  intros (q & Hq & Hfile). apply list_elem_of_In in Hq.
  rewrite Hfree in Hfile by done. discriminate.
Qed.

(* an exception of mkdir leaves the disk as it was *)
Lemma mkdir_Raise p fs e fs' : mkdir p fs = (Raise e, fs') -> fs' = fs.
Proof. unfold mkdir. destruct (existsb _ _); congruence. Qed.

Lemma write_file_Ok p data fs :
  is_dir fs (PurePath.parent p) = true -> is_dir fs p = false ->
  write_file p data fs = (Ok (), fs_store fs p (File data)).
Proof. intros H1 H2. unfold write_file. by rewrite H1, H2. Qed.

Lemma write_file_Raise p data fs e fs' :
  write_file p data fs = (Raise e, fs') -> fs' = fs.
Proof.
  unfold write_file. destruct (negb _); [congruence|].
  destruct (is_dir fs p); congruence.
Qed.

(** ** Arrays and the threshold mask *)

Lemma ndarray_ind' {A} (P : ndarray A -> Prop) :
  (∀ x, P (Item x)) ->
  (∀ xs, Forall P xs -> P (Axis xs)) ->
  ∀ a, P a.
Proof.
  intros HItem HAxis. fix IH 1. intros [x|xs]; [apply HItem|].
  apply HAxis. induction xs as [|a xs IHxs]; constructor; [apply IH|apply IHxs].
Qed.

Lemma shape_nd_map {A B} (f : A -> B) (a : ndarray A) :
  shape (nd_map f a) = shape a.
Proof.
  induction a as [x|xs IH] using ndarray_ind'; simpl; [done|].
  rewrite length_map. f_equal.
  destruct IH as [|a xs Ha _]; simpl; [done|apply Ha].
Qed.

Lemma nd_get_Axis {A} (xs : list (ndarray A)) (i : nat) (idx : list nat) :
  nd_get (Axis xs) (i :: idx) = xs !! i ≫= fun y => nd_get y idx.
Proof.
  simpl. revert i. induction xs as [|y xs IH]; intros [|i]; simpl; done.
Qed.

Lemma nd_get_nd_map {A B} (f : A -> B) (a : ndarray A) (idx : list nat) :
  nd_get (nd_map f a) idx = f <$> nd_get a idx.
Proof.
  revert idx. induction a as [x|xs IH] using ndarray_ind'; intros [|i idx];
    try reflexivity.
  change (nd_map f (Axis xs)) with (Axis (nd_map f <$> xs)).
  rewrite !nd_get_Axis, list_lookup_fmap.
  destruct (xs !! i) as [y|] eqn:Hy; simpl; [|done].
  by apply (Forall_lookup_1 _ _ _ _ IH Hy).
Qed.

(* the mask has the shape of the grey image and is true exactly where the
   grey value is strictly greater than the threshold *)
Lemma threshold_mask_spec (image_grey : ndarray float) (threshold : float) :
  shape (threshold_mask image_grey threshold) = shape image_grey
  ∧ ∀ idx,
      nd_get (threshold_mask image_grey threshold) idx
      = (fun g => (threshold <? g)%float) <$> nd_get image_grey idx.
Proof.
  unfold threshold_mask. split; [apply shape_nd_map|].
  intros idx. apply nd_get_nd_map.
Qed.

Example threshold_is_strict :
  threshold_mask (Axis [Axis [Item 0.1; Item 0.2; Item 0.3; Item nan]])%float
                 greyscale_threshold_default
  = Axis [Axis [Item false; Item false; Item true; Item false]].
Proof. reflexivity. Qed.



(** ** Scenes from images *)

(** C3, as the claim reads: every image file gives a scene.  An image
    with an alpha channel does not, with a conversion that, as
    skimage.color.rgb2gray does, accepts three channels only:
    [_make_image_scene] raises the ValueError of the conversion, no
    [scenes] directory and no scene file are made. *)
Lemma rgba_image_gives_no_scene :
  fs_lookup fs_rgba ["data"; "foo.png"] = Some (File (ImageFile two_pixels_rgba))
  ∧ _make_image_scene rgb2gray_luma ["data"; "foo.png"] greyscale_threshold_default fs_rgba
    = (Raise (ValueError "the input array must have size 3 along the channel axis"),
       fs_rgba)
  ∧ fs_lookup fs_rgba ["data"; "scenes"] = None
  ∧ fs_lookup fs_rgba ["data"; "scenes"; "foo.nc"] = None.
Proof. repeat split; reflexivity. Qed.

(** C3. For an image file, on a disk where no regular file stands in the
    way of the [scenes] directory and the scene path is not a directory:
    when the grey-scale conversion rejects the pixel array,
    [_make_image_scene] raises the error of the conversion and the disk is
    as before; when the conversion accepts it, [_make_image_scene] returns
    the stem of the file name as scene id together with the path
    [scenes/<stem>.nc] beside the source file, afterwards [scenes] and all
    its parents are directories and the scene file holds the boolean
    array [greyscale(image) > 0.2], and nothing else on the disk has
    changed. *)
Theorem make_image_scene_spec (rgb2gray : values -> result (ndarray float))
    (fs : filesystem) (filepath : Path) (image : ndarray Z) :
  let scene_id := PurePath.stem filepath in
  let scenes := PurePath.parent filepath </> "scenes" in
  let filepath_scene := scenes </> (scene_id +:+ ".nc") in
  fs_lookup fs filepath = Some (File (ImageFile image)) ->
  (∀ q, q ∈ ancestors_and_self scenes -> is_file fs q = false) ->
  is_dir fs filepath_scene = false ->
  (∀ e, rgb2gray (IntValues image) = Raise e ->
        _make_image_scene rgb2gray filepath greyscale_threshold_default fs
        = (Raise e, fs))
  ∧ (∀ image_grey, rgb2gray (IntValues image) = Ok image_grey ->
     ∃ (fs' : filesystem) (cloud_mask : ndarray bool),
       _make_image_scene rgb2gray filepath greyscale_threshold_default fs
       = (Ok (scene_id, filepath_scene), fs')
       ∧ (∀ q, q ∈ ancestors_and_self scenes -> is_dir fs' q = true)
       ∧ fs_lookup fs' filepath_scene
         = Some (File (NetcdfFile (DataArray_of (BoolValues cloud_mask))))
       ∧ shape cloud_mask = shape image_grey
       ∧ (∀ idx, nd_get cloud_mask idx
                 = (fun g => (0.2 <? g)%float) <$> nd_get image_grey idx)
       ∧ (∀ q, q ∉ ancestors_and_self filepath_scene ->
               fs_lookup fs' q = fs_lookup fs q)).
Proof.
  intros scene_id scenes filepath_scene Himage Hfree Hnodir.
  split.
  { intros e Hgrey. unfold _make_image_scene. rewrite run_bind.
    unfold imread at 1. rewrite Himage. rewrite run_bind.
    unfold lift at 1. by rewrite Hgrey. }
  intros image_grey Hgrey.
  set (cloud_mask := threshold_mask image_grey greyscale_threshold_default).
  set (fs1 := foldl mkdir_step fs (ancestors_and_self scenes)).
  set (data := NetcdfFile (DataArray_of (BoolValues cloud_mask))).
  assert (Hnotin : filepath_scene ∉ ancestors_and_self scenes).
  { intros Hin%ancestors_and_self_length. subst filepath_scene.
    unfold PurePath.div in Hin. rewrite length_app in Hin. simpl in Hin. lia. }
  assert (Hdir1 : ∀ q, q ∈ ancestors_and_self scenes -> is_dir fs1 q = true).
  { intros q Hq. apply mkdir_steps_is_dir. by left. }
  exists (fs_store fs1 filepath_scene (File data)), cloud_mask.
  split; [|split; [|split; [|split; [|split]]]].
  - unfold _make_image_scene. rewrite run_bind. unfold imread at 1.
    rewrite Himage. rewrite run_bind. unfold lift at 1. rewrite Hgrey.
    fold scene_id. fold scenes. fold filepath_scene. fold cloud_mask.
    rewrite run_bind. unfold filepath_scene at 1. rewrite parent_div.
    rewrite mkdir_Ok by done. fold fs1.
    rewrite run_bind. unfold to_netcdf.
    rewrite write_file_Ok; [reflexivity|..].
    + unfold filepath_scene. rewrite parent_div.
      apply Hdir1, self_in_ancestors_and_self.
    + transitivity (is_dir fs filepath_scene); [|exact Hnodir].
      apply is_dir_lookup. by apply mkdir_steps_other.
  - intros q Hq. rewrite is_dir_store_ne; [by apply Hdir1|].
    intros <-. done.
  - apply fs_lookup_store_eq.
  - apply threshold_mask_spec.
  - apply threshold_mask_spec.
  - intros q Hq.
    assert (Hne : filepath_scene ≠ q).
    { intros <-. apply Hq. apply self_in_ancestors_and_self. }
    rewrite fs_lookup_store_ne by done.
    apply mkdir_steps_other. intros Hin. apply Hq.
    unfold ancestors_and_self in *. rewrite list_elem_of_fmap in *.
    destruct Hin as (n & -> & Hn). exists n.
    rewrite elem_of_seq in *. unfold filepath_scene.
    change (scenes </> (scene_id +:+ ".nc")) with (scenes ++ [scene_id +:+ ".nc"]).
    rewrite length_app. simpl. split; [|lia].
    rewrite take_app_le; [done|lia].
Qed.

Lemma make_image_scene_spec_witness :
  (∃ (fs' : filesystem) (cloud_mask : ndarray bool),
    _make_image_scene rgb2gray_luma ["data"; "foo.png"] greyscale_threshold_default fs_foo
    = (Ok ("foo", ["data"; "scenes"; "foo.nc"]), fs')
    ∧ fs_lookup fs' ["data"; "scenes"; "foo.nc"]
      = Some (File (NetcdfFile (DataArray_of (BoolValues cloud_mask))))
    ∧ nd_get cloud_mask [0; 0] = Some false
    ∧ nd_get cloud_mask [0; 1] = Some true)
  ∧ ∃ e, _make_image_scene rgb2gray_luma ["data"; "foo.png"] greyscale_threshold_default
           fs_rgba
         = (Raise e, fs_rgba).
Proof.
  split.
  - destruct (make_image_scene_spec rgb2gray_luma fs_foo ["data"; "foo.png"] two_pixels
                eq_refl) as [_ Hok].
    + intros q Hq. change (q ∈ [["data"]; ["data"; "scenes"]]) in Hq.
      rewrite !elem_of_cons, elem_of_nil in Hq. destruct Hq as [->|[->|[]]]; reflexivity.
    + reflexivity.
    + destruct (Hok (Axis [Axis [Item (luma (uint8_to_float 10) (uint8_to_float 20)
                                         (uint8_to_float 30));
                                 Item (luma (uint8_to_float 200) (uint8_to_float 220)
                                         (uint8_to_float 240))]]) eq_refl)
        as (fs' & cloud_mask & Hrun & _ & Hfile & _ & Hget & _).
      exists fs', cloud_mask. split; [exact Hrun|]. split; [exact Hfile|].
      split; [exact (Hget [0; 0])|exact (Hget [0; 1])].
  - destruct (make_image_scene_spec rgb2gray_luma fs_rgba ["data"; "foo.png"]
                two_pixels_rgba eq_refl) as [Hraise _].
    + intros q Hq. change (q ∈ [["data"]; ["data"; "scenes"]]) in Hq.
      rewrite !elem_of_cons, elem_of_nil in Hq. destruct Hq as [->|[->|[]]]; reflexivity.
    + reflexivity.
    + eexists. apply Hraise. reflexivity.
Defined.

(** ** Scene ids from time stamps *)

Lemma positions_from_lookup {A} `{EqDecision A} (l : list A) (v : A) (k i : nat) :
  i ∈ positions_from k l v -> ∃ j, i = k + j ∧ l !! j = Some v.
Proof.
  revert k. induction l as [|x l IH]; intros k; simpl.
  - by intros ?%elem_of_nil.
  - destruct (decide (x = v)) as [->|Hne].
    + intros [->|Hin]%elem_of_cons.
      * exists 0. split; [lia|done].
      * destruct (IH _ Hin) as (j & -> & Hj). exists (S j). split; [lia|done].
    + intros Hin. destruct (IH _ Hin) as (j & -> & Hj).
      exists (S j). split; [lia|done].
Qed.

Lemma positions_from_absent {A} `{EqDecision A} (l : list A) (v : A) (k : nat) :
  v ∉ l -> positions_from k l v = [].
Proof.
  revert k. induction l as [|x l IH]; intros k Hv; simpl; [done|].
  apply not_elem_of_cons in Hv as [Hne Hv].
  rewrite decide_False by done. by apply IH.
Qed.

Lemma positions_from_NoDup {A} `{EqDecision A} (l : list A) (v : A) (k j : nat) :
  NoDup l -> l !! j = Some v -> positions_from k l v = [k + j].
Proof.
  intros Hnd. revert k j. induction Hnd as [|x l Hx Hnd IH]; intros k j; [done|].
  destruct j as [|j]; simpl.
  - intros [= ->]. rewrite decide_True by done.
    rewrite positions_from_absent by done. f_equal. lia.
  - intros Hj. rewrite decide_False.
    + rewrite (IH _ _ Hj). f_equal. lia.
    + intros ->. apply Hx. by eapply list_elem_of_lookup_2.
Qed.

Lemma append_empty_r (s : string) : s +:+ "" = s.
Proof.
  induction s as [|a s IH]; [reflexivity|].
  change (String a (s +:+ "") = String a s). congruence.
Qed.

(* the format of the module: year, DAY, MONTH, hour, minute *)
Lemma strftime_DATETIME_FORMAT (t : datetime) :
  strftime DATETIME_FORMAT t
  = zfill 4 (year t) +:+ zfill 2 (day t) +:+ zfill 2 (month t)
    +:+ zfill 2 (hour t) +:+ zfill 2 (minute t).
Proof.
  unfold DATETIME_FORMAT. simpl strftime.
  unfold directive. simpl. by rewrite append_empty_r.
Qed.

(* the string that [times_str.sel(time=time).item()] returns, when it
   returns, is the formatted [time] *)
Lemma item_sel_time (format : string) (times : list datetime) (time : datetime) s :
  item (omap (fun i => (strftime format <$> times) !! i) (positions times time)) = Ok s ->
  s = strftime format time.
Proof.
  intros Hitem.
  assert (Hin : s ∈ omap (fun i => (strftime format <$> times) !! i) (positions times time)).
  { destruct (omap _ _) as [|x [|y l]]; simpl in Hitem; try discriminate.
    injection Hitem as ->. by left. }
  apply list_elem_of_omap in Hin as (i & Hi & Hs).
  apply positions_from_lookup in Hi as (j & -> & Hj).
  rewrite list_lookup_fmap in Hs. simpl in Hs. rewrite Hj in Hs.
  by injection Hs as <-.
Qed.

Lemma time_scenes_yielded filepath da times todo :
  todo ⊆ times ->
  Forall (fun scene => ∃ t, t ∈ times ∧ scene = (time_scene_id filepath t, sel_time da t))
         (yielded (_time_scenes filepath da times (strftime DATETIME_FORMAT <$> times) todo)).
Proof.
  induction todo as [|time todo IH]; intros Hsub; cbn [_time_scenes yielded];
    [constructor|].
  destruct (item _) as [time_str|e] eqn:Hitem; cbn [yielded]; [|constructor].
  apply item_sel_time in Hitem as ->.
  constructor.
  - exists time. split; [apply Hsub; by left|].
    unfold time_scene_id. by rewrite strftime_DATETIME_FORMAT.
  - apply IH. intros t Ht. apply Hsub. by right.
Qed.

Lemma time_scenes_NoDup filepath da times todo :
  NoDup times -> todo ⊆ times ->
  _time_scenes filepath da times (strftime DATETIME_FORMAT <$> times) todo
  = foldr (fun t next => Yield (time_scene_id filepath t, sel_time da t) next)
          StopIteration todo.
Proof.
  intros Hnd.
  induction todo as [|time todo IH]; intros Hsub; cbn [_time_scenes foldr]; [done|].
  assert (Hin : time ∈ times) by (apply Hsub; by left).
  apply list_elem_of_lookup_1 in Hin as [j Hj].
  unfold positions. rewrite (positions_from_NoDup _ _ 0 j Hnd Hj).
  cbn [omap list_omap Nat.add]. rewrite list_lookup_fmap, Hj. cbn [fmap option_fmap option_map item].
  rewrite IH by (intros t Ht; apply Hsub; by right).
  unfold time_scene_id. by rewrite strftime_DATETIME_FORMAT.
Qed.

Lemma individual_scenes_time filepath da times :
  coords_scene_id da = None -> coords_time da = Some times ->
  _individual_scenes_in_file filepath da
  = _time_scenes filepath da times (strftime DATETIME_FORMAT <$> times) times.
Proof.
  intros Hid Htime. unfold _individual_scenes_in_file. rewrite Hid, Htime.
  reflexivity.
Qed.

(** C4, as the code has it.  For an array without a [scene_id] coordinate
    and with a [time] coordinate, every scene that the file yields has the
    id [<stem>__<time>] for one of the time values, the time written with
    the format %Y%d%m%H%M: year, day, month, hour, minute; when the time
    values are distinct the file yields one such scene per time value, in
    order.  For grid.nc and 2021-03-04T05:06:00 the id is
    "grid__202104030506". *)
Theorem time_scene_ids_spec (filepath : Path) (da : DataArray)
    (times : list datetime) :
  coords_scene_id da = None ->
  coords_time da = Some times ->
  Forall (fun scene => ∃ t, t ∈ times
                            ∧ scene = (time_scene_id filepath t, sel_time da t))
         (yielded (_individual_scenes_in_file filepath da))
  ∧ (NoDup times ->
     _individual_scenes_in_file filepath da
     = foldr (fun t next => Yield (time_scene_id filepath t, sel_time da t) next)
             StopIteration times)
  ∧ (∀ t, time_scene_id filepath t
          = PurePath.stem filepath +:+ "__" +:+ strftime "%Y%d%m%H%M" t)
  ∧ time_scene_id ["grid.nc"] (mkDatetime 2021 3 4 5 6 0) = "grid__202104030506".
Proof.
  intros Hid Htime. rewrite (individual_scenes_time _ _ _ Hid Htime).
  split; [|split; [|split]].
  - by apply time_scenes_yielded.
  - intros Hnd. by apply time_scenes_NoDup.
  - intros t. unfold time_scene_id.
    by rewrite <- (strftime_DATETIME_FORMAT t).
  - reflexivity.
Qed.

Lemma time_scene_ids_spec_witness :
  _individual_scenes_in_file ["grid.nc"] da_grid
  = Yield ("grid__202104030506", sel_time da_grid (mkDatetime 2021 3 4 5 6 0))
          StopIteration.
Proof.
  destruct (time_scene_ids_spec ["grid.nc"] da_grid [mkDatetime 2021 3 4 5 6 0]
              eq_refl eq_refl) as (_ & Hall & _ & _).
  rewrite Hall; [reflexivity|].
  apply NoDup_singleton.
Defined.

(** C4, as stated, fails on its example: the id derived for grid.nc at
    2021-03-04T05:06:00 has twelve digits, 2021 04 03 05 06, and is not
    the thirteen-digit "grid__2021040305306". *)
Lemma time_scene_id_example_differs :
  (yielded (_individual_scenes_in_file ["grid.nc"] da_grid)).*1 = ["grid__202104030506"]
  ∧ (yielded (_individual_scenes_in_file ["grid.nc"] da_grid)).*1 ≠ ["grid__2021040305306"].
Proof. split; [reflexivity|discriminate]. Qed.

(** ** Scenes from netCDF files *)

(* the message of the unsupported-source-format error *)
Lemma unsupported_format fs filepath da :
  fs_lookup fs filepath = Some (File (NetcdfFile da)) ->
  coords_scene_id da = None -> coords_time da = None ->
  _make_netcdf_scenes filepath fs
  = (Raise (NotImplementedError
       "When using a netCDF file as source it should eitherhave a `scene_id` or `time` 1D coordinate defined"),
     fs).
Proof.
  intros Hfile Hid Htime. unfold _make_netcdf_scenes.
  rewrite run_bind. unfold open_dataarray at 1. rewrite Hfile.
  unfold _individual_scenes_in_file. rewrite Hid, Htime. reflexivity.
Qed.

(* the first scene of a file ends the extraction: the loop body asks a
   str for its [parent] *)
Lemma netcdf_scene_body_raises filepath scene scenes fs :
  _netcdf_scene_body filepath scene scenes fs
  = (Raise (AttributeError "'str' object has no attribute 'parent'"), fs).
Proof. by destruct scene. Qed.

(* extraction from a netCDF file leaves the disk as it was, and when it
   returns, it returns the empty mapping *)
Lemma make_netcdf_scenes_inert filepath fs r fs' :
  _make_netcdf_scenes filepath fs = (r, fs') ->
  fs' = fs ∧ ∀ scenes, r = Ok scenes -> scenes = ∅.
Proof.
  unfold _make_netcdf_scenes. rewrite run_bind. unfold open_dataarray at 1.
  destruct (fs_lookup fs filepath) as [[|[image|da|doc|raw]]|];
    try (intros [= <- <-]; split; [done|discriminate]).
  destruct (_individual_scenes_in_file filepath da) as [|scene next|e]; simpl.
  - intros [= <- <-]. split; [done|]. by intros scenes [= <-].
  - rewrite run_bind, netcdf_scene_body_raises.
    intros [= <- <-]. split; [done|discriminate].
  - intros [= <- <-]. split; [done|discriminate].
Qed.

Lemma scenes_of_netcdf rgb2gray filepaths scenes :
  _scenes_of_filetype rgb2gray ("netcdf", filepaths) scenes
  = for_in filepaths _netcdf_body scenes.
Proof. reflexivity. Qed.

Lemma scenes_of_image rgb2gray filepaths scenes :
  _scenes_of_filetype rgb2gray ("image", filepaths) scenes
  = for_in filepaths (_image_body rgb2gray) scenes.
Proof. reflexivity. Qed.

(* an exception while the scenes are collected ends make_scenes *)
Lemma make_scenes_raise rgb2gray data_path fs0 before entry after scenes0 fs1 e fs :
  filepaths_by_filetype fs0 data_path = before ++ entry :: after ->
  for_in before (_scenes_of_filetype rgb2gray) ∅ fs0 = (Ok scenes0, fs1) ->
  _scenes_of_filetype rgb2gray entry scenes0 fs1 = (Raise e, fs) ->
  make_scenes rgb2gray data_path fs0 = (Raise e, fs).
Proof.
  intros Hfound Hbefore Hentry. unfold make_scenes.
  rewrite run_bind. unfold read_fs at 1. rewrite Hfound.
  replace (length (before ++ entry :: after) =? 0) with false
    by (symmetry; apply Nat.eqb_neq; rewrite length_app; simpl; lia).
  apply run_bind_Raise. by eapply for_in_raise.
Qed.

(* no manifest without scenes *)
Lemma produce_scene_ids_raise rgb2gray data_path dst_filename fs e fs' :
  make_scenes rgb2gray data_path fs = (Raise e, fs') ->
  produce_scene_ids rgb2gray data_path dst_filename fs = (Raise e, fs').
Proof. intros H. unfold produce_scene_ids. by apply run_bind_Raise. Qed.

(** C6. A netCDF file whose array has neither a [scene_id] nor a [time]
    coordinate makes the extraction raise NotImplementedError (the
    unsupported-source-format error); the exception is not caught: a run
    that reaches the file ends with it, and writes no manifest. *)
Theorem unsupported_source_format_error
    (rgb2gray : values -> result (ndarray float))
    (fs : filesystem) (filepath : Path) (da : DataArray) :
  fs_lookup fs filepath = Some (File (NetcdfFile da)) ->
  coords_scene_id da = None ->
  coords_time da = None ->
  let error := NotImplementedError
    "When using a netCDF file as source it should eitherhave a `scene_id` or `time` 1D coordinate defined" in
  _make_netcdf_scenes filepath fs = (Raise error, fs)
  ∧ ∀ data_path dst_filename fs0 before files_before files_after after
      scenes0 fs1 scenes,
      filepaths_by_filetype fs0 data_path
      = before ++ ("netcdf", files_before ++ filepath :: files_after) :: after ->
      for_in before (_scenes_of_filetype rgb2gray) ∅ fs0 = (Ok scenes0, fs1) ->
      for_in files_before _netcdf_body scenes0 fs1 = (Ok scenes, fs) ->
      make_scenes rgb2gray data_path fs0 = (Raise error, fs)
      ∧ produce_scene_ids rgb2gray data_path dst_filename fs0 = (Raise error, fs).
Proof.
  intros Hfile Hid Htime error.
  pose proof (unsupported_format fs filepath da Hfile Hid Htime) as Hraise.
  fold error in Hraise. split; [done|].
  intros data_path dst_filename fs0 before files_before files_after after
    scenes0 fs1 scenes Hfound Hbefore Hfiles.
  assert (Hm : make_scenes rgb2gray data_path fs0 = (Raise error, fs)).
  { eapply make_scenes_raise; [done..|].
    rewrite scenes_of_netcdf. eapply for_in_raise; [done|].
    unfold _netcdf_body. by apply run_bind_Raise. }
  split; [done|]. by apply produce_scene_ids_raise.
Qed.

Lemma unsupported_source_format_error_witness :
  _make_netcdf_scenes ["data"; "bare.nc"] fs_bare
  = (Raise (NotImplementedError
       "When using a netCDF file as source it should eitherhave a `scene_id` or `time` 1D coordinate defined"),
     fs_bare)
  ∧ produce_scene_ids rgb2gray_luma ["data"] SCENE_DB_FILENAME fs_bare
    = (Raise (NotImplementedError
         "When using a netCDF file as source it should eitherhave a `scene_id` or `time` 1D coordinate defined"),
       fs_bare).
Proof.
  destruct (unsupported_source_format_error rgb2gray_luma fs_bare
              ["data"; "bare.nc"] da_bare eq_refl eq_refl eq_refl) as [Hfile Hrun].
  split; [exact Hfile|].
  exact (proj2 (Hrun ["data"] SCENE_DB_FILENAME fs_bare [] [] [] [] ∅ fs_bare ∅
                  eq_refl eq_refl eq_refl)).
Defined.

(** C2 against the code.  For the file whose [scene_id] coordinate holds
    "a" and "b", the extraction raises AttributeError at the first scene:
    it returns no mapping and writes neither scenes/a.nc nor scenes/b.nc. *)
Theorem make_netcdf_scenes_scene_id_fails :
  yielded (_individual_scenes_in_file ["data"; "cube.nc"] da_ab)
  = [("a", sel_scene_id da_ab "a"); ("b", sel_scene_id da_ab "b")]
  ∧ _make_netcdf_scenes ["data"; "cube.nc"] fs_ab
    = (Raise (AttributeError "'str' object has no attribute 'parent'"), fs_ab)
  ∧ fs_lookup fs_ab ["data"; "scenes"; "a.nc"] = None
  ∧ fs_lookup fs_ab ["data"; "scenes"; "b.nc"] = None.
Proof. repeat split; reflexivity. Qed.

(** C1 against the code.  Two netCDF files that each produce the scene id
    "x": the run ends with AttributeError at the first scene of the first
    file, not with KeyExistsException; no manifest is written. *)
Theorem duplicate_across_netcdf_files (rgb2gray : values -> result (ndarray float)) :
  filepaths_by_filetype fs_xx ["data"]
  = [("netcdf", [["data"; "a.nc"]; ["data"; "b.nc"]])]
  ∧ (yielded (_individual_scenes_in_file ["data"; "a.nc"] da_x)).*1 = ["x"]
  ∧ (yielded (_individual_scenes_in_file ["data"; "b.nc"] da_x)).*1 = ["x"]
  ∧ produce_scene_ids rgb2gray ["data"] SCENE_DB_FILENAME fs_xx
    = (Raise (AttributeError "'str' object has no attribute 'parent'"), fs_xx)
  ∧ fs_lookup fs_xx ["data"; "scenes"; "scene_ids.yml"] = None.
Proof. repeat split; reflexivity. Qed.

(** ** Duplicate scene ids *)

(* between images the check works: a stem that is already recorded raises
   KeyExistsException *)
Lemma image_body_duplicate rgb2gray filepath scenes fs scene_id filepath_scene fs' :
  _make_image_scene rgb2gray filepath greyscale_threshold_default fs
  = (Ok (scene_id, filepath_scene), fs') ->
  is_Some (scenes !! scene_id) ->
  _image_body rgb2gray filepath scenes fs = (Raise (KeyExistsException scene_id), fs').
Proof.
  intros Hscene Hdup. unfold _image_body.
  rewrite (run_bind_Ok _ _ _ _ _ Hscene). unfold setitem.
  by rewrite setitem_present.
Qed.

Example duplicate_across_images :
  produce_scene_ids rgb2gray_luma ["data"] SCENE_DB_FILENAME fs_foo_twice
  = (Raise (KeyExistsException "foo"),
     fs_foo_twice
     ++ [(["data"; "scenes"], Dir);
         (["data"; "scenes"; "foo.nc"],
          File (NetcdfFile (DataArray_of (BoolValues (Axis [Axis [Item false; Item true]])))))]).
Proof. reflexivity. Qed.

(* the scenes of a netCDF file are merged with [update]: when the
   extraction returns, nothing is checked *)
Lemma netcdf_body_merges filepath scenes fs new fs' :
  _make_netcdf_scenes filepath fs = (Ok new, fs') ->
  _netcdf_body filepath scenes fs = (Ok (NoReplaceDict.update scenes new), fs').
Proof. intros H. unfold _netcdf_body. by rewrite (run_bind_Ok _ _ _ _ _ H). Qed.

Lemma time_scenes_no_key_error filepath da times times_str todo e :
  _time_scenes filepath da times times_str todo = Throw e ->
  ∀ key, e ≠ KeyExistsException key.
Proof.
  destruct todo as [|time todo]; simpl; [discriminate|].
  destruct (omap _ _) as [|x [|y l]]; simpl; try discriminate;
    intros [= <-] key; discriminate.
Qed.

(* whatever a netCDF file brings, the loop over netCDF files never raises
   the duplicate-identifier error *)
Lemma netcdf_body_no_key_error filepath scenes fs e fs' :
  _netcdf_body filepath scenes fs = (Raise e, fs') ->
  ∀ key, e ≠ KeyExistsException key.
Proof.
  unfold _netcdf_body, _make_netcdf_scenes. rewrite !run_bind.
  unfold open_dataarray at 1.
  destruct (fs_lookup fs filepath) as [[|[image|da|doc|raw]]|];
    try (intros [= <- <-] key; discriminate).
  destruct (_individual_scenes_in_file filepath da) as [|scene next|e'] eqn:Hgen;
    simpl.
  - discriminate.
  - rewrite run_bind, netcdf_scene_body_raises. intros [= <- <-] key. discriminate.
  - intros [= <- <-]. revert Hgen. unfold _individual_scenes_in_file.
    destruct (coords_scene_id da) as [[|scene_id scene_ids]|]; simpl;
      try discriminate.
    destruct (coords_time da) as [times|]; simpl.
    + apply time_scenes_no_key_error.
    + intros [= <-] key. discriminate.
Qed.

(** ** The manifest *)

#[local] Instance key_le_total : Total key_le.
Proof. intros x y. unfold key_le. apply String.leb_total. Qed.

(* inserting pairs with distinct keys one after the other *)
Lemma foldl_insert_NoDup (l : list (string * string)) (m : gmap string string) :
  NoDup l.*1 ->
  foldl (fun m kv => <[kv.1 := kv.2]> m) m l = list_to_map l ∪ m.
Proof.
  revert m. induction l as [|[k v] l IH]; intros m; simpl.
  - intros _. by rewrite (left_id_L ∅ (∪)).
  - intros [Hk Hnd]%NoDup_cons. rewrite IH by done. simpl.
    rewrite <- insert_union_l. symmetry. apply insert_union_r.
    by apply not_elem_of_list_to_map_1.
Qed.

(* reading back what was dumped *)
Lemma yaml_load_dump (data : gmap string string) (default_flow_style : bool) :
  yaml_load (yaml_dump data default_flow_style) = data.
Proof.
  unfold yaml_load, yaml_dump. simpl.
  assert (Hperm : merge_sort key_le (map_to_list data) ≡ₚ map_to_list data)
    by apply merge_sort_Permutation.
  assert (Hnd : NoDup (merge_sort key_le (map_to_list data)).*1).
  { rewrite Hperm. apply NoDup_fst_map_to_list. }
  rewrite foldl_insert_NoDup by done.
  rewrite (right_id_L ∅ (∪)).
  rewrite (list_to_map_proper _ _ Hnd Hperm).
  apply list_to_map_to_list.
Qed.

(* the document lists the keys in increasing order *)
Lemma yaml_dump_sorted (data : gmap string string) (default_flow_style : bool) :
  Sorted key_le (items (yaml_dump data default_flow_style)).
Proof. apply Sorted_merge_sort, _. Qed.

Lemma make_scenes_Ok rgb2gray data_path fs scenes fs1 :
  make_scenes rgb2gray data_path fs = (Ok scenes, fs1) ->
  ∃ paths : gmap string Path,
    for_in (filepaths_by_filetype fs data_path) (_scenes_of_filetype rgb2gray) ∅ fs
    = (Ok paths, fs1)
    ∧ scenes = PurePath.str <$> paths.
Proof.
  unfold make_scenes. rewrite run_bind. unfold read_fs at 1.
  destruct (length _ =? 0); [discriminate|].
  rewrite run_bind.
  destruct (for_in _ _ _ fs) as [[paths|e] fs2]; [|discriminate].
  intros [= <- <-]. by exists paths.
Qed.

(* the document holds the pairs of the mapping, each once *)
Lemma yaml_dump_items (data : gmap string string) (default_flow_style : bool) :
  items (yaml_dump data default_flow_style) ≡ₚ map_to_list data.
Proof. apply merge_sort_Permutation. Qed.

(* with default_flow_style=False the mapping is written in block style
   unless it is empty *)
Lemma yaml_dump_flow_style (data : gmap string string) :
  flow_style (yaml_dump data false) = bool_decide (data = ∅).
Proof.
  unfold yaml_dump. cbn [flow_style orb].
  apply bool_decide_ext. split.
  - intros Hnil. apply map_to_list_empty_iff.
    pose proof (merge_sort_Permutation key_le (map_to_list data)) as Hperm.
    rewrite Hnil in Hperm. symmetry in Hperm. by apply Permutation_nil_r in Hperm.
  - intros ->. by rewrite map_to_list_empty.
Qed.

(* a separator ends a part: no part holds one *)
Lemma split_sep_parts (s part : string) :
  part ∈ PurePath.split_sep s -> "/"%char ∉ list_ascii_of_string part.
Proof.
  revert part. induction s as [|c s IH]; intros part; simpl.
  - rewrite list_elem_of_singleton. intros ->. simpl. apply not_elem_of_nil.
  - destruct (Ascii.eqb_spec c "/") as [->|Hc].
    + rewrite elem_of_cons. intros [->|Hin]; [apply not_elem_of_nil|by apply IH].
    + destruct (PurePath.split_sep s) as [|part' parts].
      * rewrite list_elem_of_singleton. intros ->. simpl.
        rewrite not_elem_of_cons. split; [congruence|apply not_elem_of_nil].
      * rewrite elem_of_cons. intros [->|Hin].
        -- simpl. rewrite not_elem_of_cons. split; [congruence|].
           apply IH. by left.
        -- apply IH. by right.
Qed.

(* a str without a separator is one run *)
Lemma split_sep_one (s : string) :
  "/"%char ∉ list_ascii_of_string s -> PurePath.split_sep s = [s].
Proof.
  induction s as [|c s IH]; simpl; [done|].
  rewrite not_elem_of_cons. intros [Hc Hs].
  destruct (Ascii.eqb_spec c "/") as [->|_]; [done|].
  by rewrite IH.
Qed.

(* the names that are one part of a path *)
Lemma plain_name_spec (s : string) :
  PurePath.plain_name s = true
  <-> s ≠ "" ∧ s ≠ "." ∧ s ≠ ".." ∧ "/"%char ∉ list_ascii_of_string s.
Proof.
  unfold PurePath.plain_name. rewrite bool_decide_eq_true. split.
  - intros (_ & Hparts & Hdots).
    assert (Hin : s ∈ PurePath.parts_of s) by (rewrite Hparts; by left).
    unfold PurePath.parts_of in Hin. apply list_elem_of_filter in Hin.
    destruct Hin as [[Hne Hdot] Hin].
    repeat split; try done. by apply split_sep_parts with s.
  - intros (Hne & Hdot & Hdots & Hsep). split; [|split; [|done]].
    + destruct s as [|c s]; [done|]. simpl in Hsep.
      apply not_elem_of_cons in Hsep as [Hc _].
      unfold PurePath.root_of.
      destruct (Ascii.eqb_spec c "/") as [->|Hc']; [done|].
      destruct c as [[] [] [] [] [] [] [] []]; try done.
    + unfold PurePath.parts_of. rewrite split_sep_one by done.
      rewrite filter_cons_True by done. by rewrite filter_nil.
Qed.

(* joining a plain name appends it *)
Lemma joinpath_plain (p : Path) (s : string) :
  PurePath.plain_name s = true -> PurePath.joinpath p s = p </> s.
Proof.
  unfold PurePath.plain_name. rewrite bool_decide_eq_true.
  intros (Hroot & Hparts & _). unfold PurePath.joinpath.
  by rewrite Hroot, Hparts.
Qed.

Lemma SCENE_DB_FILENAME_plain : PurePath.plain_name SCENE_DB_FILENAME = true.
Proof. reflexivity. Qed.

(** C9, as the claim reads: every successful run writes the manifest in
    block style.  A run over a directory whose only recognized file is a
    netCDF file without scenes succeeds with the empty mapping, and the
    manifest it writes is the flow mapping [{}]. *)
Lemma empty_manifest_is_flow_style :
  produce_scene_ids rgb2gray_luma ["data"] SCENE_DB_FILENAME fs_no_scene
  = (Ok (),
     fs_no_scene ++ [(["data"; "scenes"; "scene_ids.yml"],
                      File (YamlFile {| flow_style := true; items := [] |}))])
  ∧ make_scenes rgb2gray_luma ["data"] fs_no_scene = (Ok ∅, fs_no_scene).
Proof. split; reflexivity. Qed.

(** C9. When the run succeeds with a destination name that is one part of
    a path (as the default scene_ids.yml is), the manifest builder has
    made every path of the mapping that the loops built into a string and
    has stored the mapping at [<data_path>/scenes/<dst_filename>],
    whatever was at that path before: a document that holds the pairs of
    the mapping once each with the keys in order, in block style when the
    mapping has an entry and in flow style when it has none; loading the
    document gives back exactly the mapping that was dumped, key by key
    and string by string. *)
Theorem manifest_roundtrip (rgb2gray : values -> result (ndarray float))
    (data_path : Path) (dst_filename : string) (fs fs' : filesystem) :
  PurePath.plain_name dst_filename = true ->
  produce_scene_ids rgb2gray data_path dst_filename fs = (Ok (), fs') ->
  ∃ (paths : gmap string Path) (scenes : gmap string string)
    (fs1 : filesystem) (doc : yaml_mapping),
    for_in (filepaths_by_filetype fs data_path) (_scenes_of_filetype rgb2gray) ∅ fs
    = (Ok paths, fs1)
    ∧ make_scenes rgb2gray data_path fs = (Ok scenes, fs1)
    ∧ scenes = PurePath.str <$> paths
    ∧ fs' = fs_store fs1 (data_path ++ ["scenes"; dst_filename]) (File (YamlFile doc))
    ∧ fs_lookup fs' (data_path ++ ["scenes"; dst_filename]) = Some (File (YamlFile doc))
    ∧ flow_style doc = bool_decide (scenes = ∅)
    ∧ items doc ≡ₚ map_to_list scenes
    ∧ Sorted key_le (items doc)
    ∧ yaml_load doc = scenes
    ∧ (∀ key, yaml_load doc !! key = PurePath.str <$> paths !! key)
    ∧ PurePath.plain_name SCENE_DB_FILENAME = true
    ∧ SCENE_DB_FILENAME = "scene_ids.yml".
Proof.
  intros Hplain. unfold produce_scene_ids. rewrite run_bind.
  destruct (make_scenes rgb2gray data_path fs) as [[scenes|e] fs1] eqn:Hscenes;
    [|discriminate].
  destruct (make_scenes_Ok _ _ _ _ _ Hscenes) as (paths & Hloop & Hstr).
  rewrite joinpath_plain by done.
  replace (data_path </> SCENE_PATH </> dst_filename)
    with (data_path ++ ["scenes"; dst_filename])
    by (unfold PurePath.div, SCENE_PATH; by rewrite <- app_assoc).
  unfold write_file. destruct (negb _); [discriminate|].
  destruct (is_dir fs1 _); [discriminate|].
  intros [= <-].
  exists paths, scenes, fs1, (yaml_dump scenes false).
  split; [done|]. split; [done|]. split; [done|]. split; [done|].
  split; [apply fs_lookup_store_eq|]. split; [apply yaml_dump_flow_style|].
  split; [apply yaml_dump_items|].
  split; [apply yaml_dump_sorted|]. split; [apply yaml_load_dump|].
  split; [|done].
  intros key. by rewrite yaml_load_dump, Hstr, lookup_fmap.
Qed.

Lemma manifest_roundtrip_witness :
  ∃ (fs' : filesystem) (doc : yaml_mapping),
    produce_scene_ids rgb2gray_luma ["data"] SCENE_DB_FILENAME fs_foo = (Ok (), fs')
    ∧ fs_lookup fs' ["data"; "scenes"; "scene_ids.yml"] = Some (File (YamlFile doc))
    ∧ flow_style doc = false
    ∧ yaml_load doc = {["foo" := "data/scenes/foo.nc"]}.
Proof.
  destruct (manifest_roundtrip rgb2gray_luma ["data"] SCENE_DB_FILENAME fs_foo
              (produce_scene_ids rgb2gray_luma ["data"] SCENE_DB_FILENAME fs_foo).2
              eq_refl eq_refl)
    as (paths & scenes & fs1 & doc & _ & Hscenes & _ & _ & Hfile & Hstyle & _ & _
        & Hload & _).
  exists (produce_scene_ids rgb2gray_luma ["data"] SCENE_DB_FILENAME fs_foo).2, doc.
  assert (Hrun : make_scenes rgb2gray_luma ["data"] fs_foo
                 = (Ok {["foo" := "data/scenes/foo.nc"]},
                    (make_scenes rgb2gray_luma ["data"] fs_foo).2))
    by reflexivity.
  rewrite Hrun in Hscenes. injection Hscenes as <- _.
  split; [reflexivity|]. split; [exact Hfile|]. split; [|exact Hload].
  rewrite Hstyle. apply bool_decide_eq_false.
  intros Hempty. apply (f_equal (fun m : gmap string string => m !! "foo")) in Hempty.
  by rewrite lookup_singleton_eq, lookup_empty in Hempty.
Defined.

(** ** The manifest is written on success only *)

Lemma ancestors_and_self_div (p : Path) (s : string) (q : Path) :
  q ∈ ancestors_and_self p -> q ∈ ancestors_and_self (p </> s).
Proof.
  unfold ancestors_and_self, PurePath.div. rewrite !list_elem_of_fmap.
  intros (n & -> & Hn). exists n. rewrite elem_of_seq in *.
  rewrite length_app. simpl. split; [|lia].
  rewrite take_app_le; [done|lia].
Qed.

(* a path as long as [p] is among the prefixes of [p] only if it is [p] *)
Lemma ancestors_and_self_full (p q : Path) :
  q ∈ ancestors_and_self p -> length q = length p -> q = p.
Proof.
  unfold ancestors_and_self. rewrite list_elem_of_fmap.
  intros (n & -> & Hn) Hlen. rewrite length_take in Hlen.
  apply take_ge. lia.
Qed.

(* whatever its outcome, the extraction of an image scene touches the
   scene path and the directories above it only *)
Lemma make_image_scene_frame rgb2gray filepath threshold fs r fs' q :
  _make_image_scene rgb2gray filepath threshold fs = (r, fs') ->
  q ∉ ancestors_and_self
        (PurePath.parent filepath </> SCENE_PATH </> (PurePath.stem filepath +:+ ".nc")) ->
  fs_lookup fs' q = fs_lookup fs q.
Proof.
  intros Hrun Hq. revert Hrun. unfold _make_image_scene.
  rewrite run_bind. unfold imread at 1.
  destruct (fs_lookup fs filepath) as [[|[image|da|doc|raw]]|];
    try (by intros [= <- <-]).
  rewrite run_bind. unfold lift at 1.
  destruct (rgb2gray (IntValues image)) as [image_grey|e]; [|by intros [= <- <-]].
  rewrite run_bind, parent_div.
  set (scenes := PurePath.parent filepath </> SCENE_PATH) in *.
  unfold mkdir at 1. destruct (existsb _ _); [by intros [= <- <-]|].
  assert (Hdirs : fs_lookup (foldl mkdir_step fs (ancestors_and_self scenes)) q
                  = fs_lookup fs q).
  { apply mkdir_steps_other. intros Hin. by apply Hq, ancestors_and_self_div. }
  rewrite run_bind. unfold to_netcdf, write_file at 1.
  destruct (negb _); [by intros [= <- <-]|].
  destruct (is_dir _ _); [by intros [= <- <-]|].
  intros [= <- <-]. rewrite fs_lookup_store_ne; [done|].
  intros <-. apply Hq, self_in_ancestors_and_self.
Qed.

Lemma for_in_frame {A S} (xs : list A) (body : A -> S -> io S) (q : Path) :
  (∀ x s fs r fs', x ∈ xs -> body x s fs = (r, fs') ->
                   fs_lookup fs' q = fs_lookup fs q) ->
  ∀ s fs r fs', for_in xs body s fs = (r, fs') -> fs_lookup fs' q = fs_lookup fs q.
Proof.
  induction xs as [|x xs IH]; intros Hbody s fs r fs'; simpl.
  - by intros [= <- <-].
  - rewrite run_bind. destruct (body x s fs) as [[s1|e] fs1] eqn:Hx.
    + intros Hrest. transitivity (fs_lookup fs1 q).
      * eapply IH; [|done]. intros ? ? ? ? ? ?. apply Hbody. by right.
      * eapply Hbody; [by left|done].
    + intros [= <- <-]. eapply Hbody; [by left|done].
Qed.

Lemma setitem_frame {V} (scenes : gmap string V) key val fs r fs' :
  setitem scenes key val fs = (r, fs') -> fs' = fs.
Proof.
  unfold setitem. destruct (NoReplaceDict.__setitem__ _ _ _) as [[?|?] ?];
    by intros [= <- <-].
Qed.

(* a manifest name that is not of the form [base.nc] is no scene path *)
Lemma scenes_of_filetype_frame rgb2gray data_path dst_filename entry scenes fs r fs' :
  (∀ base, dst_filename ≠ base +:+ ".nc") ->
  (∀ p, p ∈ entry.2 -> PurePath.parent p = data_path) ->
  _scenes_of_filetype rgb2gray entry scenes fs = (r, fs') ->
  fs_lookup fs' (data_path </> SCENE_PATH </> dst_filename)
  = fs_lookup fs (data_path </> SCENE_PATH </> dst_filename).
Proof.
  intros Hdst Hparent. destruct entry as [filetype filepaths].
  unfold _scenes_of_filetype.
  destruct (String.eqb filetype "image"); [|destruct (String.eqb filetype "netcdf")].
  - apply for_in_frame. intros filepath s fs0 r0 fs0' Hin. unfold _image_body.
    rewrite run_bind.
    destruct (_make_image_scene _ _ _ fs0) as [[[scene_id filepath_scene]|e] fs1] eqn:Hscene.
    + intros ->%setitem_frame. eapply make_image_scene_frame; [done|].
      rewrite (Hparent filepath Hin). intros Hanc.
      apply ancestors_and_self_full in Hanc as Heq.
      * apply app_inj_tail in Heq as [_ Heq]. by apply (Hdst (PurePath.stem filepath)).
      * unfold PurePath.div. by rewrite !length_app.
    + intros [= <- <-]. eapply make_image_scene_frame; [done|].
      rewrite (Hparent filepath Hin). intros Hanc.
      apply ancestors_and_self_full in Hanc as Heq.
      * apply app_inj_tail in Heq as [_ Heq]. by apply (Hdst (PurePath.stem filepath)).
      * unfold PurePath.div. by rewrite !length_app.
  - apply for_in_frame. intros filepath s fs0 r0 fs0' _. unfold _netcdf_body.
    rewrite run_bind.
    destruct (_make_netcdf_scenes filepath fs0) as [[new|e] fs1] eqn:Hnew;
      apply make_netcdf_scenes_inert in Hnew as [-> _]; by intros [= <- <-].
  - by intros [= <- <-].
Qed.

(* discovery finds files of the directory itself *)
Lemma filepaths_by_filetype_parent fs data_path entry p :
  entry ∈ filepaths_by_filetype fs data_path -> p ∈ entry.2 ->
  PurePath.parent p = data_path.
Proof.
  pose proof (elem_of_image_matches fs data_path) as Himages.
  pose proof (elem_of_netcdf_matches fs data_path) as Harrays.
  rewrite filepaths_by_filetype_eq. cbv zeta. rewrite elem_of_app.
  intros [Hin|Hin].
  - destruct (glob fs data_path "*.png" ++ _) as [|p0 images] eqn:Heq;
      [by apply elem_of_nil in Hin|].
    apply list_elem_of_singleton in Hin as ->. simpl. intros Hp.
    by apply Himages in Hp as (_ & _ & Hparent & _).
  - destruct (glob fs data_path "*.nc" ++ _) as [|p0 arrays] eqn:Heq;
      [by apply elem_of_nil in Hin|].
    apply list_elem_of_singleton in Hin as ->. simpl. intros Hp.
    by apply Harrays in Hp as (_ & _ & Hparent & _).
Qed.

Lemma make_scenes_frame rgb2gray data_path dst_filename fs r fs' :
  (∀ base, dst_filename ≠ base +:+ ".nc") ->
  make_scenes rgb2gray data_path fs = (r, fs') ->
  fs_lookup fs' (data_path </> SCENE_PATH </> dst_filename)
  = fs_lookup fs (data_path </> SCENE_PATH </> dst_filename).
Proof.
  intros Hdst. unfold make_scenes. rewrite run_bind. unfold read_fs at 1.
  destruct (length _ =? 0); [by intros [= <- <-]|].
  rewrite run_bind.
  destruct (for_in _ _ _ fs) as [[paths|e] fs1] eqn:Hloop; intros [= <- <-];
    (eapply for_in_frame; [|exact Hloop]);
    intros entry s fs0 r0 fs0' Hin; apply scenes_of_filetype_frame; try done;
    intros p Hp; by eapply filepaths_by_filetype_parent.
Qed.

Lemma SCENE_DB_FILENAME_not_nc base : SCENE_DB_FILENAME ≠ base +:+ ".nc".
Proof.
  intros Heq.
  assert (H : fnmatch (list_ascii_of_string ("*." +:+ "nc"))
                      (list_ascii_of_string SCENE_DB_FILENAME) = true).
  { apply fnmatch_star_dot; [repeat constructor|]. by exists base. }
  discriminate H.
Qed.

(* a run that raises, for whatever reason, leaves the manifest path as it
   was *)
Lemma no_manifest_on_error rgb2gray data_path fs e fs' :
  produce_scene_ids rgb2gray data_path SCENE_DB_FILENAME fs = (Raise e, fs') ->
  fs_lookup fs' (data_path </> SCENE_PATH </> SCENE_DB_FILENAME)
  = fs_lookup fs (data_path </> SCENE_PATH </> SCENE_DB_FILENAME).
Proof.
  unfold produce_scene_ids. rewrite run_bind.
  destruct (make_scenes rgb2gray data_path fs) as [[scenes|e1] fs1] eqn:Hscenes.
  - intros Hwrite. apply write_file_Raise in Hwrite as ->.
    eapply make_scenes_frame; [apply SCENE_DB_FILENAME_not_nc|done].
  - intros [= <- <-].
    eapply make_scenes_frame; [apply SCENE_DB_FILENAME_not_nc|done].
Qed.

(** * Further properties of the code *)

(** ** Extraction from netCDF files *)

(** X1. Whatever the file, [_make_netcdf_scenes] leaves the disk as it
    was, and a mapping it returns is empty; as soon as the [scene_id]
    coordinate holds one value, or the generator yields a scene, it raises
    AttributeError. *)
Theorem netcdf_extraction_never_writes (filepath : Path) (fs : filesystem) :
  (_make_netcdf_scenes filepath fs).2 = fs
  ∧ (∀ scenes, (_make_netcdf_scenes filepath fs).1 = Ok scenes -> scenes = ∅)
  ∧ (∀ da scene next,
       fs_lookup fs filepath = Some (File (NetcdfFile da)) ->
       _individual_scenes_in_file filepath da = Yield scene next ->
       (_make_netcdf_scenes filepath fs).1
       = Raise (AttributeError "'str' object has no attribute 'parent'"))
  ∧ (∀ da scene_id scene_ids,
       fs_lookup fs filepath = Some (File (NetcdfFile da)) ->
       coords_scene_id da = Some (scene_id :: scene_ids) ->
       (_make_netcdf_scenes filepath fs).1
       = Raise (AttributeError "'str' object has no attribute 'parent'"))
  ∧ (∀ da,
       fs_lookup fs filepath = Some (File (NetcdfFile da)) ->
       coords_scene_id da = Some [] ->
       (_make_netcdf_scenes filepath fs).1 = Ok ∅).
Proof.
  destruct (_make_netcdf_scenes filepath fs) as [r fs'] eqn:Hrun.
  destruct (make_netcdf_scenes_inert _ _ _ _ Hrun) as [-> Hempty].
  split; [done|]. split; [done|].
  assert (Hyield : ∀ da scene next,
    fs_lookup fs filepath = Some (File (NetcdfFile da)) ->
    _individual_scenes_in_file filepath da = Yield scene next ->
    r = Raise (AttributeError "'str' object has no attribute 'parent'")).
  { intros da scene next Hfile Hgen. revert Hrun. unfold _make_netcdf_scenes.
    rewrite run_bind. unfold open_dataarray at 1. rewrite Hfile, Hgen. simpl.
    rewrite run_bind, netcdf_scene_body_raises. by intros [= <-]. }
  split; [exact Hyield|]. split.
  - intros da scene_id scene_ids Hfile Hid.
    eapply (Hyield da); [done|].
    unfold _individual_scenes_in_file. rewrite Hid. reflexivity.
  - intros da Hfile Hid. simpl. revert Hrun. unfold _make_netcdf_scenes.
    rewrite run_bind. unfold open_dataarray at 1. rewrite Hfile.
    unfold _individual_scenes_in_file. rewrite Hid. simpl. by intros [= <-].
Qed.

Lemma for_in_netcdf_no_key_error filepaths scenes fs e fs' :
  for_in filepaths _netcdf_body scenes fs = (Raise e, fs') ->
  ∀ key, e ≠ KeyExistsException key.
Proof.
  revert scenes fs. induction filepaths as [|filepath filepaths IH];
    intros scenes fs; simpl; [discriminate|].
  rewrite run_bind.
  destruct (_netcdf_body filepath scenes fs) as [[scenes1|e1] fs1] eqn:Hbody.
  - apply IH.
  - intros [= <- <-]. by eapply netcdf_body_no_key_error.
Qed.

(** X2. The netCDF branch of make_scenes never raises the
    duplicate-identifier error: neither one round of its loop nor the
    whole loop ends with KeyExistsException, whatever the files hold and
    whatever is already recorded. *)
Theorem netcdf_branch_never_raises_KeyExists
    (rgb2gray : values -> result (ndarray float))
    (filepaths : list Path) (scenes : gmap string Path) (fs : filesystem) :
  (∀ filepath key,
     (_netcdf_body filepath scenes fs).1 ≠ Raise (KeyExistsException key))
  ∧ (∀ key,
       (_scenes_of_filetype rgb2gray ("netcdf", filepaths) scenes fs).1
       ≠ Raise (KeyExistsException key)).
Proof.
  split.
  - intros filepath key.
    destruct (_netcdf_body filepath scenes fs) as [[s|e] fs'] eqn:Hbody; simpl;
      [discriminate|].
    intros [= ->]. by eapply netcdf_body_no_key_error.
  - intros key. rewrite scenes_of_netcdf.
    destruct (for_in filepaths _netcdf_body scenes fs) as [[s|e] fs'] eqn:Hloop;
      simpl; [discriminate|].
    intros [= ->]. by eapply for_in_netcdf_no_key_error.
Qed.

(** ** Failed runs *)

(** X3. For a manifest name that is one part of a path and not of the
    form [base.nc] (the default scene_ids.yml is such a name), the
    manifest path is [<data_path>/scenes/<name>], and a run that raises,
    for whatever reason, leaves that path as it was before the run. *)
Theorem failed_run_leaves_manifest (rgb2gray : values -> result (ndarray float))
    (data_path : Path) (dst_filename : string) (fs fs' : filesystem) (e : exn) :
  PurePath.plain_name dst_filename = true ->
  (∀ base, dst_filename ≠ base +:+ ".nc") ->
  produce_scene_ids rgb2gray data_path dst_filename fs = (Raise e, fs') ->
  PurePath.joinpath (data_path </> SCENE_PATH) dst_filename
  = data_path </> SCENE_PATH </> dst_filename
  ∧ fs_lookup fs' (PurePath.joinpath (data_path </> SCENE_PATH) dst_filename)
    = fs_lookup fs (PurePath.joinpath (data_path </> SCENE_PATH) dst_filename).
Proof.
  intros Hplain Hdst Hrun. rewrite joinpath_plain by done. split; [done|].
  revert Hrun. unfold produce_scene_ids. rewrite run_bind.
  destruct (make_scenes rgb2gray data_path fs) as [[scenes|e1] fs1] eqn:Hscenes.
  - intros Hwrite. apply write_file_Raise in Hwrite as ->.
    by eapply make_scenes_frame.
  - intros [= <- <-]. by eapply make_scenes_frame.
Qed.

Lemma failed_run_leaves_manifest_witness :
  fs_lookup (produce_scene_ids rgb2gray_luma ["data"] SCENE_DB_FILENAME fs_foo_twice).2
            ["data"; "scenes"; "scene_ids.yml"]
  = None.
Proof.
  exact (proj2 (failed_run_leaves_manifest rgb2gray_luma ["data"] SCENE_DB_FILENAME
                  fs_foo_twice
                  (produce_scene_ids rgb2gray_luma ["data"] SCENE_DB_FILENAME
                     fs_foo_twice).2
                  (KeyExistsException "foo")
                  eq_refl SCENE_DB_FILENAME_not_nc eq_refl)).
Defined.

(** ** Extraction from images *)

Lemma existsb_is_file_false fs (qs : list Path) :
  existsb (is_file fs) qs = false -> ∀ q, q ∈ qs -> is_file fs q = false.
Proof.
  intros Hno q Hq. apply not_true_is_false. intros Hfile.
  assert (existsb (is_file fs) qs = true); [|congruence].
  apply existsb_exists. exists q. split; [by apply list_elem_of_In|done].
Qed.

(* the run of a successful extraction, with the disk it leaves *)
Lemma make_image_scene_run rgb2gray fs filepath image image_grey threshold :
  fs_lookup fs filepath = Some (File (ImageFile image)) ->
  rgb2gray (IntValues image) = Ok image_grey ->
  (∀ q, q ∈ ancestors_and_self (PurePath.parent filepath </> SCENE_PATH) ->
        is_file fs q = false) ->
  is_dir fs (PurePath.parent filepath </> SCENE_PATH
             </> (PurePath.stem filepath +:+ ".nc")) = false ->
  _make_image_scene rgb2gray filepath threshold fs
  = (Ok (PurePath.stem filepath,
         PurePath.parent filepath </> SCENE_PATH </> (PurePath.stem filepath +:+ ".nc")),
     fs_store (foldl mkdir_step fs
                 (ancestors_and_self (PurePath.parent filepath </> SCENE_PATH)))
              (PurePath.parent filepath </> SCENE_PATH
               </> (PurePath.stem filepath +:+ ".nc"))
              (File (NetcdfFile (DataArray_of
                 (BoolValues (threshold_mask image_grey threshold)))))).
Proof.
  intros Himage Hgrey Hfree Hnodir.
  set (scenes := PurePath.parent filepath </> SCENE_PATH) in *.
  set (filepath_scene := scenes </> (PurePath.stem filepath +:+ ".nc")) in *.
  unfold _make_image_scene. rewrite run_bind. unfold imread at 1.
  rewrite Himage. rewrite run_bind. unfold lift at 1. rewrite Hgrey.
  fold scenes. fold filepath_scene.
  rewrite run_bind. unfold filepath_scene at 1. rewrite parent_div.
  rewrite mkdir_Ok by done.
  rewrite run_bind. unfold to_netcdf.
  rewrite write_file_Ok; [reflexivity|..].
  - unfold filepath_scene. rewrite parent_div.
    apply mkdir_steps_is_dir. left. apply self_in_ancestors_and_self.
  - transitivity (is_dir fs filepath_scene); [|exact Hnodir].
    apply is_dir_lookup, mkdir_steps_other.
    intros Hin%ancestors_and_self_length. subst filepath_scene.
    unfold PurePath.div in Hin. rewrite length_app in Hin. simpl in Hin. lia.
Qed.

(* what a successful extraction returned, and where the scene is *)
Lemma make_image_scene_Ok_inv rgb2gray filepath threshold fs scene_id filepath_scene fs' :
  _make_image_scene rgb2gray filepath threshold fs = (Ok (scene_id, filepath_scene), fs') ->
  scene_id = PurePath.stem filepath
  ∧ filepath_scene
    = PurePath.parent filepath </> SCENE_PATH </> (PurePath.stem filepath +:+ ".nc")
  ∧ (∃ da, fs_lookup fs' filepath_scene = Some (File (NetcdfFile da)))
  ∧ ∃ image, fs_lookup fs filepath = Some (File (ImageFile image)).
Proof.
  unfold _make_image_scene. rewrite run_bind. unfold imread at 1.
  destruct (fs_lookup fs filepath) as [[|[image|da|doc|raw]]|]; try discriminate.
  rewrite run_bind. unfold lift at 1.
  destruct (rgb2gray (IntValues image)) as [image_grey|e]; [|discriminate].
  rewrite run_bind, parent_div.
  unfold mkdir at 1. destruct (existsb _ _); [discriminate|].
  rewrite run_bind. unfold to_netcdf, write_file at 1.
  destruct (negb _); [discriminate|]. destruct (is_dir _ _); [discriminate|].
  intros [= <- <- <-]. split; [done|]. split; [done|]. split; [|by eexists].
  eexists. apply fs_lookup_store_eq.
Qed.

(** X4. Between images the duplicate check comes after the write: when
    the stem of an image is already recorded, the loop body first writes
    the scene file (replacing the file an earlier image with that stem
    left there) and then raises KeyExistsException(stem). *)
Theorem image_duplicate_raises_after_write
    (rgb2gray : values -> result (ndarray float))
    (fs : filesystem) (filepath : Path) (image : ndarray Z)
    (image_grey : ndarray float) (scenes : gmap string Path) :
  let filepath_scene :=
    PurePath.parent filepath </> "scenes" </> (PurePath.stem filepath +:+ ".nc") in
  fs_lookup fs filepath = Some (File (ImageFile image)) ->
  rgb2gray (IntValues image) = Ok image_grey ->
  (∀ q, q ∈ ancestors_and_self (PurePath.parent filepath </> "scenes") ->
        is_file fs q = false) ->
  is_dir fs filepath_scene = false ->
  is_Some (scenes !! PurePath.stem filepath) ->
  ∃ fs' : filesystem,
    _image_body rgb2gray filepath scenes fs
    = (Raise (KeyExistsException (PurePath.stem filepath)), fs')
    ∧ fs_lookup fs' filepath_scene
      = Some (File (NetcdfFile (DataArray_of (BoolValues
                (threshold_mask image_grey greyscale_threshold_default))))).
Proof.
  intros filepath_scene Himage Hgrey Hfree Hnodir Hdup.
  pose proof (make_image_scene_run rgb2gray fs filepath image image_grey
                greyscale_threshold_default Himage Hgrey Hfree Hnodir) as Hrun.
  eexists. split.
  - by eapply image_body_duplicate.
  - apply fs_lookup_store_eq.
Qed.

Lemma image_duplicate_raises_after_write_witness :
  ∃ fs' : filesystem,
    _image_body rgb2gray_luma ["data"; "foo.jpg"]
      {["foo" := ["data"; "scenes"; "foo.nc"]]}
      (_make_image_scene rgb2gray_luma ["data"; "foo.png"]
         greyscale_threshold_default fs_foo_twice).2
    = (Raise (KeyExistsException "foo"), fs')
    ∧ fs_lookup fs' ["data"; "scenes"; "foo.nc"]
      = Some (File (NetcdfFile (DataArray_of (BoolValues
                (Axis [Axis [Item false; Item true]]))))).
Proof.
  refine (image_duplicate_raises_after_write rgb2gray_luma
            (_make_image_scene rgb2gray_luma ["data"; "foo.png"]
               greyscale_threshold_default fs_foo_twice).2
            ["data"; "foo.jpg"] two_pixels
            (Axis [Axis [Item (luma (uint8_to_float 10) (uint8_to_float 20) (uint8_to_float 30));
                         Item (luma (uint8_to_float 200) (uint8_to_float 220) (uint8_to_float 240))]])
            {["foo" := ["data"; "scenes"; "foo.nc"]]}
            eq_refl eq_refl _ eq_refl _).
  - by apply existsb_is_file_false.
  - by rewrite lookup_singleton_eq.
Defined.

Lemma ancestors_and_self_div_inv (p : Path) (s : string) (q : Path) :
  q ∈ ancestors_and_self (p </> s) -> q ∈ ancestors_and_self p ∨ q = p </> s.
Proof.
  unfold ancestors_and_self, PurePath.div. rewrite !list_elem_of_fmap.
  intros (n & -> & Hn). rewrite elem_of_seq, length_app in Hn. simpl in Hn.
  destruct (decide (n < length p)) as [Hlt|Hge].
  - left. exists n. rewrite elem_of_seq. split; [|lia].
    rewrite take_app_le; [done|lia].
  - right. apply take_ge. rewrite length_app. simpl. lia.
Qed.

(** X5. Whatever its outcome, [_make_image_scene] changes nothing on the
    disk besides the scene path and the directories above it; the source
    image itself is never changed. *)
Theorem image_extraction_frame (rgb2gray : values -> result (ndarray float))
    (filepath : Path) (threshold : float) (fs : filesystem) :
  let fs' := (_make_image_scene rgb2gray filepath threshold fs).2 in
  let filepath_scene :=
    PurePath.parent filepath </> "scenes" </> (PurePath.stem filepath +:+ ".nc") in
  (∀ q, q ∉ ancestors_and_self filepath_scene -> fs_lookup fs' q = fs_lookup fs q)
  ∧ fs_lookup fs' filepath = fs_lookup fs filepath.
Proof.
  intros fs' filepath_scene. subst fs'.
  destruct (_make_image_scene rgb2gray filepath threshold fs) as [r fs'] eqn:Hrun.
  simpl. split.
  - intros q Hq. by eapply make_image_scene_frame.
  - destruct (decide (filepath ∈ ancestors_and_self filepath_scene)) as [Hin|Hout];
      [|by eapply make_image_scene_frame].
    (* the source is in the way of the scenes directory: nothing is written *)
    revert Hrun. unfold _make_image_scene. rewrite run_bind. unfold imread at 1.
    destruct (fs_lookup fs filepath) as [[|[image|da|doc|raw]]|] eqn:Hfile;
      try (by intros [= <- <-]).
    rewrite run_bind. unfold lift at 1.
    destruct (rgb2gray (IntValues image)) as [image_grey|e]; [|by intros [= <- <-]].
    rewrite run_bind, parent_div. unfold mkdir at 1.
    destruct (existsb _ _) eqn:Hfree; [by intros [= <- <-]|].
    exfalso.
    apply ancestors_and_self_div_inv in Hin as [Hin|Heq].
    + pose proof (existsb_is_file_false _ _ Hfree _ Hin) as Hnofile.
      destruct filepath as [|c filepath].
      * unfold ancestors_and_self in Hin.
        apply list_elem_of_fmap in Hin as (n & Hn & _). discriminate Hn.
      * unfold is_file in Hnofile. rewrite Hfile in Hnofile. discriminate.
    + apply (f_equal length) in Heq. unfold filepath_scene, PurePath.div in Heq.
      rewrite !length_app in Heq. simpl in Heq.
      unfold PurePath.parent in Heq. destruct filepath as [|c filepath] using rev_ind.
      * simpl in Heq. lia.
      * rewrite removelast_last, length_app in Heq. simpl in Heq. lia.
Qed.

(** ** What a run writes *)

(* what discovery found: entries of the directory itself, with a
   recognized name, under one of the two keys *)
Lemma filepaths_by_filetype_elem fs data_path entry p :
  entry ∈ filepaths_by_filetype fs data_path -> p ∈ entry.2 ->
  (entry.1 = "image" ∨ entry.1 = "netcdf")
  ∧ p ∈ fs.*1 ∧ p ≠ [] ∧ PurePath.parent p = data_path
  ∧ ∃ base ext, ext ∈ extensions ∧ PurePath.name p = base +:+ "." +:+ ext.
Proof.
  pose proof (elem_of_image_matches fs data_path) as Himages.
  pose proof (elem_of_netcdf_matches fs data_path) as Harrays.
  rewrite filepaths_by_filetype_eq. cbv zeta. rewrite elem_of_app.
  intros [Hin|Hin].
  - destruct (glob fs data_path "*.png" ++ _) as [|p0 images] eqn:Heq;
      [by apply elem_of_nil in Hin|].
    apply list_elem_of_singleton in Hin as ->. simpl. intros Hp.
    apply Himages in Hp as (? & ? & ? & base & ext & Hext & ?).
    split; [by left|]. repeat split; try done. exists base, ext. split; [|done].
    rewrite extensions_eq. rewrite !elem_of_cons in *. tauto.
  - destruct (glob fs data_path "*.nc" ++ _) as [|p0 arrays] eqn:Heq;
      [by apply elem_of_nil in Hin|].
    apply list_elem_of_singleton in Hin as ->. simpl. intros Hp.
    apply Harrays in Hp as (? & ? & ? & base & ext & Hext & ?).
    split; [by right|]. repeat split; try done. exists base, ext. split; [|done].
    rewrite extensions_eq. rewrite !elem_of_cons in *. tauto.
Qed.

Lemma image_body_frame rgb2gray filepath scenes fs r fs' q :
  _image_body rgb2gray filepath scenes fs = (r, fs') ->
  q ∉ ancestors_and_self
        (PurePath.parent filepath </> SCENE_PATH </> (PurePath.stem filepath +:+ ".nc")) ->
  fs_lookup fs' q = fs_lookup fs q.
Proof.
  unfold _image_body. rewrite run_bind.
  destruct (_make_image_scene _ _ _ fs) as [[[scene_id filepath_scene]|e] fs1] eqn:Hscene.
  - intros ->%setitem_frame. by eapply make_image_scene_frame.
  - intros [= <- <-]. by eapply make_image_scene_frame.
Qed.

Lemma netcdf_body_frame filepath scenes fs r fs' :
  _netcdf_body filepath scenes fs = (r, fs') -> fs' = fs.
Proof.
  unfold _netcdf_body. rewrite run_bind.
  destruct (_make_netcdf_scenes filepath fs) as [[new|e] fs1] eqn:Hnew;
    apply make_netcdf_scenes_inert in Hnew as [-> _]; by intros [= <- <-].
Qed.

(* a path that is neither inside the scenes directory nor above it is out
   of reach of the run *)
Lemma make_scenes_frame_outside rgb2gray data_path fs r fs' q :
  q ∉ ancestors_and_self (data_path </> SCENE_PATH) ->
  (∀ x, q ≠ data_path </> SCENE_PATH </> x) ->
  make_scenes rgb2gray data_path fs = (r, fs') ->
  fs_lookup fs' q = fs_lookup fs q.
Proof.
  intros Habove Hinside.
  assert (Hloop : ∀ scenes r1 fs1,
    for_in (filepaths_by_filetype fs data_path) (_scenes_of_filetype rgb2gray) scenes fs
    = (r1, fs1) -> fs_lookup fs1 q = fs_lookup fs q).
  { intros scenes r1 fs1. apply for_in_frame.
    intros [filetype filepaths] s fs0 r0 fs0' Hentry. unfold _scenes_of_filetype.
    destruct (String.eqb filetype "image"); [|destruct (String.eqb filetype "netcdf")].
    - apply for_in_frame. intros filepath s1 fs2 r2 fs2' Hin Hbody.
      eapply image_body_frame; [done|].
      rewrite (filepaths_by_filetype_parent _ _ _ _ Hentry Hin).
      intros [Hanc| ->]%ancestors_and_self_div_inv; [done|by eapply Hinside].
    - apply for_in_frame. intros filepath s1 fs2 r2 fs2' _ Hbody.
      by apply netcdf_body_frame in Hbody as ->.
    - by intros [= <- <-]. }
  unfold make_scenes. rewrite run_bind. unfold read_fs at 1.
  destruct (length _ =? 0); [by intros [= <- <-]|].
  rewrite run_bind.
  destruct (for_in _ _ _ fs) as [[paths|e] fs1] eqn:Hrun; intros [= <- <-];
    by eapply Hloop.
Qed.

Lemma path_split (p : Path) :
  p ≠ [] -> p = PurePath.parent p </> PurePath.name p.
Proof. intros Hp. by apply app_removelast_last. Qed.

Lemma scenes_not_recognized base ext :
  ext ∈ extensions -> SCENE_PATH ≠ base +:+ "." +:+ ext.
Proof.
  intros Hext Heq. eapply (not_named_ext SCENE_PATH ext); [done| |by exists base].
  rewrite extensions_eq in Hext.
  repeat (apply elem_of_cons in Hext as [->|Hext]; [reflexivity|]).
  by apply elem_of_nil in Hext.
Qed.

(** X6. With a manifest name that is one part of a path (as the default
    scene_ids.yml is), a run, whatever its outcome, changes nothing on the
    disk besides the [scenes] directory of the data path, what is inside
    it and the directories above it; in particular every source file that
    discovery found is as it was. *)
Theorem run_writes_under_scenes_only (rgb2gray : values -> result (ndarray float))
    (data_path : Path) (dst_filename : string) (fs : filesystem) :
  PurePath.plain_name dst_filename = true ->
  let fs' := (produce_scene_ids rgb2gray data_path dst_filename fs).2 in
  (∀ q, q ∉ ancestors_and_self (data_path </> "scenes") ->
        (∀ x, q ≠ data_path </> "scenes" </> x) ->
        fs_lookup fs' q = fs_lookup fs q)
  ∧ (∀ entry p, entry ∈ filepaths_by_filetype fs data_path -> p ∈ entry.2 ->
                fs_lookup fs' p = fs_lookup fs p).
Proof.
  intros Hplain fs'.
  assert (Hframe : ∀ q, q ∉ ancestors_and_self (data_path </> SCENE_PATH) ->
            (∀ x, q ≠ data_path </> SCENE_PATH </> x) ->
            fs_lookup fs' q = fs_lookup fs q).
  { intros q Habove Hinside. subst fs'. unfold produce_scene_ids.
    rewrite run_bind, joinpath_plain by done.
    destruct (make_scenes rgb2gray data_path fs) as [[scenes|e] fs1] eqn:Hscenes.
    - transitivity (fs_lookup fs1 q); [|by eapply make_scenes_frame_outside].
      unfold write_file. destruct (negb _); [done|]. destruct (is_dir _ _); [done|].
      simpl. apply fs_lookup_store_ne. intros <-. by eapply Hinside.
    - simpl. by eapply make_scenes_frame_outside. }
  split; [exact Hframe|].
  intros entry p Hentry Hp.
  destruct (filepaths_by_filetype_elem _ _ _ _ Hentry Hp)
    as (_ & _ & Hne & Hparent & base & ext & Hext & Hname).
  apply path_split in Hne as Hsplit. rewrite Hparent, Hname in Hsplit.
  apply Hframe.
  - intros [Hanc|Heq]%ancestors_and_self_div_inv.
    + apply ancestors_and_self_length in Hanc. rewrite Hsplit in Hanc.
      unfold PurePath.div in Hanc. rewrite length_app in Hanc. simpl in Hanc. lia.
    + rewrite Hsplit in Heq. apply app_inj_tail in Heq as [_ Heq].
      symmetry in Heq. by eapply scenes_not_recognized.
  - intros x Heq. apply (f_equal length) in Heq. rewrite Hsplit in Heq.
    unfold PurePath.div in Heq. rewrite !length_app in Heq. simpl in Heq. lia.
Qed.

Lemma run_writes_under_scenes_only_witness :
  fs_lookup (produce_scene_ids rgb2gray_luma ["data"] SCENE_DB_FILENAME fs_foo).2
            ["data"; "foo.png"]
  = Some (File (ImageFile two_pixels)).
Proof.
  destruct (run_writes_under_scenes_only rgb2gray_luma ["data"] SCENE_DB_FILENAME
              fs_foo eq_refl) as [_ Hsource].
  apply (Hsource ("image", [["data"; "foo.png"]]) ["data"; "foo.png"]).
  - assert (Hfound : filepaths_by_filetype fs_foo ["data"]
                     = [("image", [["data"; "foo.png"]])]) by reflexivity.
    rewrite Hfound. by left.
  - by left.
Defined.

(** ** File names *)

Lemma append_String a s t : String a s +:+ t = String a (s +:+ t).
Proof. reflexivity. Qed.

Lemma length_append (s t : string) :
  String.length (s +:+ t) = String.length s + String.length t.
Proof.
  induction s as [|a s IH]; [reflexivity|].
  rewrite append_String. simpl. by rewrite IH.
Qed.

Lemma substring_append (s t : string) : substring 0 (String.length s) (s +:+ t) = s.
Proof.
  induction s as [|a s IH].
  - change ("" +:+ t) with t. by destruct t.
  - rewrite append_String. simpl. by rewrite IH.
Qed.

Lemma append_inj_length (s1 s2 t1 t2 : string) :
  String.length s1 = String.length s2 -> s1 +:+ t1 = s2 +:+ t2 -> s1 = s2 ∧ t1 = t2.
Proof.
  revert s2. induction s1 as [|a s1 IH]; intros [|b s2] Hlen; try discriminate.
  - by intros H.
  - rewrite !append_String. intros [= -> H].
    destruct (IH s2) as [-> ->]; [by injection Hlen|done|done].
Qed.

(* the last dot of [base.ext] is the one before [ext] *)
Lemma rfind_dot_ext (base ext : string) :
  PurePath.rfind "." ext = None ->
  PurePath.rfind "." (base +:+ "." +:+ ext) = Some (String.length base).
Proof.
  intros Hext. induction base as [|a base IH].
  - change ("" +:+ "." +:+ ext) with (String "." ext). simpl. by rewrite Hext.
  - rewrite append_String. simpl. by rewrite IH.
Qed.

Lemma extensions_no_dot ext : ext ∈ extensions -> PurePath.rfind "." ext = None.
Proof.
  rewrite extensions_eq. intros Hext.
  repeat (apply elem_of_cons in Hext as [->|Hext]; [reflexivity|]).
  by apply elem_of_nil in Hext.
Qed.

(* a name has one reading as [base.ext] with a recognized extension *)
Lemma named_ext_unique (base1 ext1 base2 ext2 : string) :
  ext1 ∈ extensions -> ext2 ∈ extensions ->
  base1 +:+ "." +:+ ext1 = base2 +:+ "." +:+ ext2 ->
  base1 = base2 ∧ ext1 = ext2.
Proof.
  intros H1%extensions_no_dot H2%extensions_no_dot Heq.
  pose proof (rfind_dot_ext base1 ext1 H1) as Hr1.
  pose proof (rfind_dot_ext base2 ext2 H2) as Hr2.
  rewrite Heq, Hr2 in Hr1. injection Hr1 as Hlen.
  destruct (append_inj_length base1 base2 ("." +:+ ext1) ("." +:+ ext2)) as [-> Hext];
    [done|done|].
  split; [done|]. by injection Hext.
Qed.

(** X7. The scene id of a discovered file: for a file named [base.ext]
    with [ext] a recognized extension and [base] not empty, the stem, and
    so the scene id of an image, is [base]; for the file named [.ext] it
    is the whole name. *)
Theorem stem_of_recognized_name (p : Path) (base ext : string) :
  ext ∈ extensions ->
  PurePath.name p = base +:+ "." +:+ ext ->
  PurePath.stem p = (if decide (base = "") then "." +:+ ext else base).
Proof.
  intros Hext Hname. unfold PurePath.stem. rewrite Hname.
  rewrite (rfind_dot_ext base ext) by by apply extensions_no_dot.
  destruct base as [|a base].
  - reflexivity.
  - rewrite decide_False by done.
    replace (0 <? String.length (String a base)) with true by reflexivity.
    replace (String.length (String a base)
             <? String.length (String a base +:+ "." +:+ ext) - 1) with true.
    + apply substring_append.
    + symmetry. apply Nat.ltb_lt. rewrite !length_append.
      assert (0 < String.length ext); [|simpl; lia].
      rewrite extensions_eq in Hext.
      repeat (apply elem_of_cons in Hext as [->|Hext]; [simpl; lia|]).
      by apply elem_of_nil in Hext.
Qed.

Lemma stem_of_recognized_name_witness :
  PurePath.stem ["data"; "cloud.field.jpeg"] = "cloud.field"
  ∧ PurePath.stem ["data"; ".nc4"] = ".nc4".
Proof.
  split.
  - refine (stem_of_recognized_name ["data"; "cloud.field.jpeg"] "cloud.field" "jpeg" _ eq_refl).
    rewrite extensions_eq. repeat constructor.
  - refine (stem_of_recognized_name ["data"; ".nc4"] "" "nc4" _ eq_refl).
    rewrite extensions_eq. repeat constructor.
Defined.

(** ** More on discovery *)

Lemma NoDup_glob fs d pattern : NoDup fs.*1 -> NoDup (glob fs d pattern).
Proof. intros Hnd. unfold glob, scandir. by do 2 apply NoDup_filter. Qed.

(* no name matches the patterns of two extensions *)
Lemma glob_disjoint fs d ext1 ext2 p :
  ext1 ∈ extensions -> ext2 ∈ extensions -> ext1 ≠ ext2 ->
  p ∈ glob fs d ("*." +:+ ext1) -> p ∉ glob fs d ("*." +:+ ext2).
Proof.
  intros H1 H2 Hne Hp1 Hp2.
  apply elem_of_glob in Hp1 as (_ & _ & _ & base1 & Hn1);
    [|by apply extensions_literal].
  apply elem_of_glob in Hp2 as (_ & _ & _ & base2 & Hn2);
    [|by apply extensions_literal].
  rewrite Hn1 in Hn2. by apply named_ext_unique in Hn2 as [_ ?].
Qed.

Lemma NoDup_all_globs fs d :
  NoDup fs.*1 ->
  NoDup ((glob fs d "*.png" ++ glob fs d "*.jpg" ++ glob fs d "*.jpeg")
         ++ (glob fs d "*.nc" ++ glob fs d "*.nc4")).
Proof.
  intros Hnd.
  change "*.png" with ("*." +:+ "png"). change "*.jpg" with ("*." +:+ "jpg").
  change "*.jpeg" with ("*." +:+ "jpeg").
  change "*.nc" with ("*." +:+ "nc"). change "*.nc4" with ("*." +:+ "nc4").
  assert (Hin : ∀ ext, ext ∈ ["png"; "jpg"; "jpeg"; "nc"; "nc4"] -> ext ∈ extensions)
    by (intros ext; by rewrite extensions_eq).
  repeat (rewrite ?NoDup_app; repeat split; try by apply NoDup_glob);
    intros p Hp Hq; rewrite ?elem_of_app in Hp; rewrite ?elem_of_app in Hq;
    destruct_or?;
    (eapply glob_disjoint; [| | |exact Hp|exact Hq];
     [apply Hin; repeat constructor|apply Hin; repeat constructor|discriminate]).
Qed.

(** X8. Discovery is complete and finds each file once: the dict is
    empty exactly when no entry of the directory has a name [base.ext]
    with a recognized extension; every list in the dict is non-empty and
    sits under the key "image" or "netcdf" (the last branch of make_scenes
    is never taken); and when the directory listing has no repeated path,
    no file is found twice, within a category or across the two. *)
Theorem discovery_complete_and_once (fs : filesystem) (data_path : Path) :
  let found := filepaths_by_filetype fs data_path in
  (found = [] <->
     ∀ p ext, p ∈ scandir fs data_path -> ext ∈ extensions ->
              ¬ ∃ base, PurePath.name p = base +:+ "." +:+ ext)
  ∧ (∀ entry, entry ∈ found ->
       entry.2 ≠ [] ∧ (entry.1 = "image" ∨ entry.1 = "netcdf"))
  ∧ (NoDup fs.*1 -> NoDup (mjoin found.*2)).
Proof.
  intros found. subst found. split; [|split].
  - split; [|apply filepaths_by_filetype_nil].
    intros Hnil p ext Hp Hext [base Hname].
    assert (Hglob : p ∈ glob fs data_path ("*." +:+ ext)).
    { apply elem_of_glob; [by apply extensions_literal|].
      unfold scandir in Hp. apply list_elem_of_filter in Hp as [[? ?] ?].
      repeat split; try done. by exists base. }
    rewrite filepaths_by_filetype_eq in Hnil. cbv zeta in Hnil.
    apply app_eq_nil in Hnil as [Himages Harrays].
    assert (Hall : glob fs data_path "*.png" = [] ∧ glob fs data_path "*.jpg" = []
                   ∧ glob fs data_path "*.jpeg" = [] ∧ glob fs data_path "*.nc" = []
                   ∧ glob fs data_path "*.nc4" = []).
    { destruct (glob fs data_path "*.png"), (glob fs data_path "*.jpg"),
        (glob fs data_path "*.jpeg"), (glob fs data_path "*.nc"),
        (glob fs data_path "*.nc4"); try discriminate. done. }
    destruct Hall as (H1 & H2 & H3 & H4 & H5).
    rewrite extensions_eq in Hext.
    repeat (apply elem_of_cons in Hext as [->|Hext];
            [first [ change ("*." +:+ "png") with "*.png" in Hglob; rewrite H1 in Hglob
                   | change ("*." +:+ "jpg") with "*.jpg" in Hglob; rewrite H2 in Hglob
                   | change ("*." +:+ "jpeg") with "*.jpeg" in Hglob; rewrite H3 in Hglob
                   | change ("*." +:+ "nc") with "*.nc" in Hglob; rewrite H4 in Hglob
                   | change ("*." +:+ "nc4") with "*.nc4" in Hglob; rewrite H5 in Hglob ];
             by apply elem_of_nil in Hglob|]).
    by apply elem_of_nil in Hext.
  - intros entry. rewrite filepaths_by_filetype_eq. cbv zeta. rewrite elem_of_app.
    intros [Hin|Hin].
    + destruct (glob fs data_path "*.png" ++ _) as [|p0 images];
        [by apply elem_of_nil in Hin|].
      apply list_elem_of_singleton in Hin as ->. simpl. split; [done|by left].
    + destruct (glob fs data_path "*.nc" ++ _) as [|p0 arrays];
        [by apply elem_of_nil in Hin|].
      apply list_elem_of_singleton in Hin as ->. simpl. split; [done|by right].
  - intros Hnd. pose proof (NoDup_all_globs fs data_path Hnd) as Hall.
    rewrite filepaths_by_filetype_eq. cbv zeta.
    destruct (glob fs data_path "*.png" ++ _) as [|p0 images],
      (glob fs data_path "*.nc" ++ _) as [|q0 arrays]; simpl in *;
      rewrite ?app_nil_r in *; done.
Qed.

(** ** More on scene ids from time stamps *)

Lemma yielded_foldr {A B} (f : A -> B) (l : list A) :
  yielded (foldr (fun x next => Yield (f x) next) StopIteration l) = f <$> l.
Proof. induction l as [|x l IH]; simpl; [done|]. by rewrite IH. Qed.

Lemma NoDup_fmap_elem_inj {A B} (f : A -> B) (l : list A) (x y : A) :
  NoDup (f <$> l) -> x ∈ l -> y ∈ l -> f x = f y -> x = y.
Proof.
  intros Hnd [i Hi]%list_elem_of_lookup_1 [j Hj]%list_elem_of_lookup_1 Hf.
  assert (i = j) as ->; [|congruence].
  eapply NoDup_lookup; [exact Hnd| |]; rewrite list_lookup_fmap.
  - by rewrite Hi.
  - rewrite Hj. simpl. by rewrite Hf.
Qed.

(** X9. The format of the scene ids has no seconds: in a file with
    distinct time values, two values that differ only in their seconds
    give two scenes with the same scene id. *)
Theorem same_minute_scene_ids_collide (filepath : Path) (da : DataArray)
    (times : list datetime) (t1 t2 : datetime) :
  coords_scene_id da = None ->
  coords_time da = Some times ->
  NoDup times ->
  t1 ∈ times -> t2 ∈ times -> t1 ≠ t2 ->
  year t1 = year t2 -> month t1 = month t2 -> day t1 = day t2 ->
  hour t1 = hour t2 -> minute t1 = minute t2 ->
  length (yielded (_individual_scenes_in_file filepath da)) = length times
  ∧ ¬ NoDup (yielded (_individual_scenes_in_file filepath da)).*1.
Proof.
  intros Hid Htime Hnd H1 H2 Hne Hy Hm Hd Hh Hmin.
  rewrite (individual_scenes_time _ _ _ Hid Htime).
  rewrite time_scenes_NoDup by done.
  rewrite (yielded_foldr (fun t => (time_scene_id filepath t, sel_time da t))).
  split; [by rewrite length_fmap|].
  rewrite <- list_fmap_compose. intros Hids. apply Hne.
  eapply (NoDup_fmap_elem_inj _ _ t1 t2 Hids); [done|done|]. simpl.
  unfold time_scene_id. by rewrite Hy, Hm, Hd, Hh, Hmin.
Qed.

Lemma same_minute_scene_ids_collide_witness :
  length (yielded (_individual_scenes_in_file ["grid.nc"] da_half_minute)) = 2
  ∧ ¬ NoDup (yielded (_individual_scenes_in_file ["grid.nc"] da_half_minute)).*1.
Proof.
  apply (same_minute_scene_ids_collide ["grid.nc"] da_half_minute
           [mkDatetime 2021 3 4 5 6 0; mkDatetime 2021 3 4 5 6 30]
           (mkDatetime 2021 3 4 5 6 0) (mkDatetime 2021 3 4 5 6 30));
    try reflexivity.
  - apply NoDup_cons. split; [|apply NoDup_singleton].
    intros Hin%list_elem_of_singleton. discriminate Hin.
  - repeat constructor.
  - repeat constructor.
  - discriminate.
Defined.

(** ** Successful runs *)

Lemma setitem_Ok_inv {V} (scenes : gmap string V) key val fs scenes' fs' :
  setitem scenes key val fs = (Ok scenes', fs') ->
  scenes !! key = None ∧ scenes' = <[key := val]> scenes ∧ fs' = fs.
Proof.
  unfold setitem. destruct (scenes !! key) as [v|] eqn:Hkey.
  - rewrite setitem_present by eauto. discriminate.
  - rewrite setitem_absent by done. by intros [= <- <-].
Qed.

Lemma image_body_Ok_inv rgb2gray filepath scenes fs scenes' fs' :
  _image_body rgb2gray filepath scenes fs = (Ok scenes', fs') ->
  scenes !! PurePath.stem filepath = None
  ∧ scenes' = <[PurePath.stem filepath := scene_path filepath]> scenes
  ∧ ∃ da, fs_lookup fs' (scene_path filepath) = Some (File (NetcdfFile da)).
Proof.
  unfold _image_body. rewrite run_bind.
  destruct (_make_image_scene _ _ _ fs) as [[[scene_id filepath_scene]|e] fs1] eqn:Hscene;
    [|discriminate].
  apply make_image_scene_Ok_inv in Hscene as (-> & -> & Hfile & _).
  intros (Hnone & -> & ->)%setitem_Ok_inv. done.
Qed.

(* the mapping that a successful loop over images has built *)
Lemma image_loop_Ok rgb2gray filepaths scenes0 fs0 scenes1 fs1 :
  for_in filepaths (_image_body rgb2gray) scenes0 fs0 = (Ok scenes1, fs1) ->
  scenes1 = list_to_map ((fun fp => (PurePath.stem fp, scene_path fp)) <$> filepaths)
            ∪ scenes0
  ∧ NoDup (PurePath.stem <$> filepaths)
  ∧ ∀ fp, fp ∈ filepaths -> scenes0 !! PurePath.stem fp = None.
Proof.
  revert scenes0 fs0. induction filepaths as [|filepath filepaths IH];
    intros scenes0 fs0; simpl.
  - intros [= <- <-]. rewrite (left_id_L ∅ (∪)). split; [done|].
    split; [constructor|]. by intros fp ?%elem_of_nil.
  - rewrite run_bind.
    destruct (_image_body rgb2gray filepath scenes0 fs0) as [[scenes'|e] fs'] eqn:Hbody;
      [|discriminate].
    apply image_body_Ok_inv in Hbody as (Hnone & -> & _).
    intros (-> & Hnd & Hfresh)%IH.
    assert (Hrest : ∀ fp, fp ∈ filepaths ->
              PurePath.stem fp ≠ PurePath.stem filepath
              ∧ scenes0 !! PurePath.stem fp = None).
    { intros fp Hfp. specialize (Hfresh fp Hfp).
      apply lookup_insert_None in Hfresh as [? ?]. done. }
    assert (Hnotin : PurePath.stem filepath ∉ PurePath.stem <$> filepaths).
    { intros (fp & Heq & Hfp)%list_elem_of_fmap.
      destruct (Hrest fp Hfp) as [Hne _]. congruence. }
    split; [|split].
    + rewrite <- insert_union_l. symmetry. apply insert_union_r.
      apply not_elem_of_list_to_map_1. by rewrite <- list_fmap_compose.
    + by apply NoDup_cons.
    + intros fp [->|Hfp]%elem_of_cons; [done|]. by apply Hrest.
Qed.

Lemma append_inj_r (s1 s2 t : string) : s1 +:+ t = s2 +:+ t -> s1 = s2.
Proof.
  intros H. apply list_ascii_of_string_inj.
  apply (f_equal list_ascii_of_string) in H.
  rewrite !list_ascii_of_string_app in H. by apply app_inv_tail in H.
Qed.

(* scenes beside each other: one is in the way of the other only when
   the stems are the same *)
Lemma scene_path_ancestors (fp fp' : Path) :
  PurePath.parent fp = PurePath.parent fp' ->
  scene_path fp ∈ ancestors_and_self (scene_path fp') ->
  PurePath.stem fp = PurePath.stem fp'.
Proof.
  intros Hparent Hin. apply ancestors_and_self_full in Hin.
  - unfold scene_path in Hin. rewrite Hparent in Hin.
    apply app_inj_tail in Hin as [_ Hin]. by apply append_inj_r in Hin.
  - unfold scene_path, PurePath.div. rewrite !length_app, Hparent. done.
Qed.

(* after a successful loop over images of one directory, every scene is
   on the disk *)
Lemma image_loop_files rgb2gray data_path filepaths scenes0 fs0 scenes1 fs1 :
  (∀ fp, fp ∈ filepaths -> PurePath.parent fp = data_path) ->
  for_in filepaths (_image_body rgb2gray) scenes0 fs0 = (Ok scenes1, fs1) ->
  ∀ fp, fp ∈ filepaths ->
        ∃ da, fs_lookup fs1 (scene_path fp) = Some (File (NetcdfFile da)).
Proof.
  revert scenes0 fs0. induction filepaths as [|filepath filepaths IH];
    intros scenes0 fs0 Hparent; simpl.
  - by intros _ fp ?%elem_of_nil.
  - rewrite run_bind.
    destruct (_image_body rgb2gray filepath scenes0 fs0) as [[scenes'|e] fs'] eqn:Hbody;
      [|discriminate].
    intros Hrest fp [->|Hfp]%elem_of_cons.
    + apply image_body_Ok_inv in Hbody as (_ & -> & da & Hfile).
      exists da. rewrite <- Hfile.
      apply image_loop_Ok in Hrest as Hloop. destruct Hloop as (_ & _ & Hfresh).
      eapply for_in_frame; [|exact Hrest].
      intros fp' s fs r fs2 Hfp' Hbody'. eapply image_body_frame; [done|].
      fold (scene_path fp'). intros Hin.
      apply scene_path_ancestors in Hin;
        [|by rewrite !Hparent by (by left || by right)].
      specialize (Hfresh fp' Hfp'). rewrite <- Hin in Hfresh.
      by rewrite lookup_insert_eq in Hfresh.
    + eapply IH; [|done|done]. intros fp' Hfp'. apply Hparent. by right.
Qed.

(* a successful loop over netCDF files adds nothing and writes nothing *)
Lemma netcdf_loop_Ok filepaths scenes fs scenes' fs' :
  for_in filepaths _netcdf_body scenes fs = (Ok scenes', fs') ->
  scenes' = scenes ∧ fs' = fs.
Proof.
  revert scenes fs. induction filepaths as [|filepath filepaths IH];
    intros scenes fs; simpl.
  - by intros [= <- <-].
  - rewrite run_bind. unfold _netcdf_body at 1. rewrite run_bind.
    destruct (_make_netcdf_scenes filepath fs) as [[new|e] fs1] eqn:Hnew;
      [|discriminate].
    apply make_netcdf_scenes_inert in Hnew as [-> Hempty].
    rewrite (Hempty new eq_refl). simpl.
    unfold NoReplaceDict.update. rewrite (left_id_L ∅ (∪)). apply IH.
Qed.

(* a successful collection of scenes is a successful loop over the images *)
Lemma scenes_loop_Ok rgb2gray data_path fs paths fs1 :
  for_in (filepaths_by_filetype fs data_path) (_scenes_of_filetype rgb2gray) ∅ fs
  = (Ok paths, fs1) ->
  for_in (glob fs data_path "*.png" ++ glob fs data_path "*.jpg"
          ++ glob fs data_path "*.jpeg")
         (_image_body rgb2gray) ∅ fs
  = (Ok paths, fs1).
Proof.
  rewrite filepaths_by_filetype_eq. cbv zeta.
  destruct (glob fs data_path "*.png" ++ _) as [|p0 images],
    (glob fs data_path "*.nc" ++ _) as [|q0 arrays]; simpl app.
  - done.
  - cbn [for_in]. rewrite run_bind, scenes_of_netcdf.
    destruct (for_in (q0 :: arrays) _netcdf_body ∅ fs) as [[s|e] fs2] eqn:Hnet;
      [|discriminate].
    apply netcdf_loop_Ok in Hnet as [-> ->]. by intros [= <- <-].
  - cbn [for_in]. rewrite !run_bind, scenes_of_image.
    cbn [for_in]. rewrite run_bind.
    destruct (_image_body rgb2gray p0 ∅ fs) as [[s|e] fs2]; [|discriminate].
    destruct (for_in images (_image_body rgb2gray) s fs2) as [[s'|e] fs3];
      [|discriminate].
    done.
  - cbn [for_in]. rewrite !run_bind, scenes_of_image.
    cbn [for_in]. rewrite run_bind.
    destruct (_image_body rgb2gray p0 ∅ fs) as [[s|e] fs2]; [|discriminate].
    destruct (for_in images (_image_body rgb2gray) s fs2) as [[s'|e] fs3];
      [|discriminate].
    rewrite run_bind, scenes_of_netcdf.
    destruct (for_in (q0 :: arrays) _netcdf_body s' fs3) as [[s''|e] fs4] eqn:Hnet;
      [|discriminate].
    apply netcdf_loop_Ok in Hnet as [-> ->]. by intros [= <- <-].
Qed.

(* what a successful make_scenes returns and leaves on the disk *)
Lemma make_scenes_Ok_spec (rgb2gray : values -> result (ndarray float))
    (data_path : Path) (fs fs' : filesystem) (scenes : gmap string string) :
  let images := glob fs data_path "*.png" ++ glob fs data_path "*.jpg"
                ++ glob fs data_path "*.jpeg" in
  make_scenes rgb2gray data_path fs = (Ok scenes, fs') ->
  NoDup (PurePath.stem <$> images)
  ∧ (∀ k v, scenes !! k = Some v
            <-> ∃ fp, fp ∈ images ∧ k = PurePath.stem fp
                      ∧ v = PurePath.str (data_path </> "scenes" </> (k +:+ ".nc")))
  ∧ size scenes = length images
  ∧ (∀ fp, fp ∈ images ->
       ∃ da, fs_lookup fs' (data_path </> "scenes" </> (PurePath.stem fp +:+ ".nc"))
             = Some (File (NetcdfFile da))).
Proof.
  intros images Hrun.
  apply make_scenes_Ok in Hrun as (paths & Hloop & ->).
  apply scenes_loop_Ok in Hloop. fold images in Hloop.
  assert (Hparent : ∀ fp, fp ∈ images -> PurePath.parent fp = data_path).
  { intros fp Hfp. by apply elem_of_image_matches in Hfp as (_ & _ & ? & _). }
  pose proof (image_loop_files _ _ _ _ _ _ _ Hparent Hloop) as Hfiles.
  apply image_loop_Ok in Hloop as (-> & Hnd & _).
  rewrite (right_id_L ∅ (∪)).
  set (pairs := (fun fp => (PurePath.stem fp, scene_path fp)) <$> images).
  assert (Hkeys : pairs.*1 = PurePath.stem <$> images)
    by (unfold pairs; by rewrite <- list_fmap_compose).
  split; [done|]. split; [|split].
  - intros k v. rewrite lookup_fmap. split.
    + destruct ((list_to_map pairs : gmap string Path) !! k) as [p|] eqn:Hk;
        [|discriminate].
      intros [= <-]. apply elem_of_list_to_map in Hk; [|by rewrite Hkeys].
      apply list_elem_of_fmap in Hk as (fp & [= -> ->] & Hfp).
      exists fp. split; [done|]. split; [done|].
      unfold scene_path. by rewrite (Hparent fp Hfp).
    + intros (fp & Hfp & -> & ->).
      assert (Hk : (list_to_map pairs : gmap string Path) !! PurePath.stem fp
                   = Some (scene_path fp)).
      { apply elem_of_list_to_map; [by rewrite Hkeys|].
        apply list_elem_of_fmap. by exists fp. }
      rewrite Hk. simpl. unfold scene_path. by rewrite (Hparent fp Hfp).
  - rewrite map_size_fmap, map_size_list_to_map by by rewrite Hkeys.
    unfold pairs. by rewrite length_fmap.
  - intros fp Hfp. destruct (Hfiles fp Hfp) as [da Hda]. exists da.
    rewrite <- Hda. unfold scene_path. by rewrite (Hparent fp Hfp).
Qed.

(** X10. What a successful make_scenes returns: the mapping holds one
    entry per discovered image, from the stem of its name to the string
    of [scenes/<stem>.nc] beside it, and nothing else; the stems of the
    images are distinct; netCDF files have contributed nothing; and every
    scene file of the mapping is on the disk. *)
Theorem successful_make_scenes (rgb2gray : values -> result (ndarray float))
    (data_path : Path) (fs fs' : filesystem) (scenes : gmap string string) :
  let images := glob fs data_path "*.png" ++ glob fs data_path "*.jpg"
                ++ glob fs data_path "*.jpeg" in
  make_scenes rgb2gray data_path fs = (Ok scenes, fs') ->
  NoDup (PurePath.stem <$> images)
  ∧ (∀ k v, scenes !! k = Some v
            <-> ∃ fp, fp ∈ images ∧ k = PurePath.stem fp
                      ∧ v = PurePath.str (data_path </> "scenes" </> (k +:+ ".nc")))
  ∧ size scenes = length images
  ∧ (∀ fp, fp ∈ images ->
       ∃ da, fs_lookup fs' (data_path </> "scenes" </> (PurePath.stem fp +:+ ".nc"))
             = Some (File (NetcdfFile da))).
Proof. apply make_scenes_Ok_spec. Qed.

Lemma successful_make_scenes_witness :
  (make_scenes rgb2gray_luma ["data"] fs_album).1
  = Ok {["a" := "data/scenes/a.nc"; "b" := "data/scenes/b.nc"]}
  ∧ size ({["a" := "data/scenes/a.nc"; "b" := "data/scenes/b.nc"]} : gmap string string) = 2
  ∧ ∃ da, fs_lookup (make_scenes rgb2gray_luma ["data"] fs_album).2
                    ["data"; "scenes"; "b.nc"]
          = Some (File (NetcdfFile da)).
Proof.
  assert (Hrun : make_scenes rgb2gray_luma ["data"] fs_album
                 = (Ok {["a" := "data/scenes/a.nc"; "b" := "data/scenes/b.nc"]},
                    (make_scenes rgb2gray_luma ["data"] fs_album).2))
    by reflexivity.
  destruct (successful_make_scenes rgb2gray_luma ["data"] fs_album
              (make_scenes rgb2gray_luma ["data"] fs_album).2
              {["a" := "data/scenes/a.nc"; "b" := "data/scenes/b.nc"]}
              Hrun) as (_ & _ & Hsize & Hfiles).
  split; [by rewrite Hrun|]. split; [exact Hsize|].
  apply (Hfiles ["data"; "b.jpg"]).
  change (["data"; "b.jpg"] ∈ [["data"; "a.png"]; ["data"; "b.jpg"]]).
  repeat constructor.
Defined.

(** X11. After a successful run with a manifest name that is one part of
    a path and not of the form [base.nc] (the default scene_ids.yml is
    such a name), the manifest is on the disk at
    [<data_path>/scenes/<name>], lists every key once, and each of its
    entries maps a scene id to the string of
    [<data_path>/scenes/<scene_id>.nc], a path at which the disk holds a
    netCDF file. *)
Theorem manifest_entries_exist (rgb2gray : values -> result (ndarray float))
    (data_path : Path) (dst_filename : string) (fs fs' : filesystem) :
  PurePath.plain_name dst_filename = true ->
  (∀ base, dst_filename ≠ base +:+ ".nc") ->
  produce_scene_ids rgb2gray data_path dst_filename fs = (Ok (), fs') ->
  ∃ doc : yaml_mapping,
    fs_lookup fs' (data_path </> "scenes" </> dst_filename) = Some (File (YamlFile doc))
    ∧ NoDup (items doc).*1
    ∧ ∀ k v, (k, v) ∈ items doc ->
        v = PurePath.str (data_path </> "scenes" </> (k +:+ ".nc"))
        ∧ ∃ da, fs_lookup fs' (data_path </> "scenes" </> (k +:+ ".nc"))
                = Some (File (NetcdfFile da)).
Proof.
  intros Hplain Hdst. unfold produce_scene_ids.
  rewrite run_bind, joinpath_plain by done.
  destruct (make_scenes rgb2gray data_path fs) as [[scenes|e] fs1] eqn:Hscenes;
    [|discriminate].
  unfold write_file. destruct (negb _); [discriminate|].
  destruct (is_dir fs1 _); [discriminate|].
  intros [= <-]. exists (yaml_dump scenes false).
  pose proof (merge_sort_Permutation key_le (map_to_list scenes)) as Hperm.
  split; [apply fs_lookup_store_eq|]. split.
  - simpl. rewrite Hperm. apply NoDup_fst_map_to_list.
  - intros k v Hkv. simpl in Hkv. rewrite Hperm in Hkv.
    apply elem_of_map_to_list in Hkv.
    destruct (make_scenes_Ok_spec _ _ _ _ _ Hscenes) as (_ & Hlookup & _ & Hfiles).
    apply Hlookup in Hkv as (fp & Hfp & -> & ->). split; [done|].
    destruct (Hfiles fp Hfp) as [da Hda]. exists da. rewrite <- Hda.
    apply fs_lookup_store_ne. intros Heq.
    apply app_inj_tail in Heq as [_ Heq]. by eapply Hdst.
Qed.

Lemma manifest_entries_exist_witness :
  ∃ doc : yaml_mapping,
    fs_lookup (produce_scene_ids rgb2gray_luma ["data"] SCENE_DB_FILENAME
                 (fs_album ++ [(["data"; "scenes"], Dir)])).2
              ["data"; "scenes"; "scene_ids.yml"]
    = Some (File (YamlFile doc))
    ∧ items doc = [("a", "data/scenes/a.nc"); ("b", "data/scenes/b.nc")]
    ∧ ∃ da, fs_lookup (produce_scene_ids rgb2gray_luma ["data"] SCENE_DB_FILENAME
                         (fs_album ++ [(["data"; "scenes"], Dir)])).2
                      ["data"; "scenes"; "a.nc"]
            = Some (File (NetcdfFile da)).
Proof.
  destruct (manifest_entries_exist rgb2gray_luma ["data"] SCENE_DB_FILENAME
              (fs_album ++ [(["data"; "scenes"], Dir)])
              (produce_scene_ids rgb2gray_luma ["data"] SCENE_DB_FILENAME
                 (fs_album ++ [(["data"; "scenes"], Dir)])).2
              eq_refl SCENE_DB_FILENAME_not_nc eq_refl)
    as (doc & Hfile & _ & Hentries).
  exists doc. split; [exact Hfile|].
  assert (Hdoc : items doc = [("a", "data/scenes/a.nc"); ("b", "data/scenes/b.nc")]).
  { assert (Hrun : fs_lookup (produce_scene_ids rgb2gray_luma ["data"] SCENE_DB_FILENAME
                                (fs_album ++ [(["data"; "scenes"], Dir)])).2
                             ["data"; "scenes"; "scene_ids.yml"]
                   = Some (File (YamlFile
                       {| flow_style := false;
                          items := [("a", "data/scenes/a.nc"); ("b", "data/scenes/b.nc")] |})))
      by reflexivity.
    pose proof (eq_trans (eq_sym Hfile) Hrun) as Heq.
    by injection Heq as ->. }
  split; [exact Hdoc|].
  apply (Hentries "a" "data/scenes/a.nc"). rewrite Hdoc. repeat constructor.
Defined.

(** ** Directories without images *)

Lemma netcdf_loop_frame filepaths scenes fs r fs' :
  for_in filepaths _netcdf_body scenes fs = (r, fs') -> fs' = fs.
Proof.
  revert scenes fs. induction filepaths as [|filepath filepaths IH];
    intros scenes fs; simpl.
  - by intros [= <- <-].
  - rewrite run_bind.
    destruct (_netcdf_body filepath scenes fs) as [[scenes1|e] fs1] eqn:Hbody;
      apply netcdf_body_frame in Hbody as ->.
    + apply IH.
    + by intros [= <- <-].
Qed.

Lemma make_scenes_no_images rgb2gray data_path fs r fs' :
  glob fs data_path "*.png" ++ glob fs data_path "*.jpg" ++ glob fs data_path "*.jpeg" = [] ->
  make_scenes rgb2gray data_path fs = (r, fs') ->
  fs' = fs ∧ ∀ scenes, r = Ok scenes -> scenes = ∅.
Proof.
  intros Himages. unfold make_scenes. rewrite run_bind. unfold read_fs at 1.
  rewrite filepaths_by_filetype_eq. cbv zeta. rewrite Himages.
  destruct (glob fs data_path "*.nc" ++ _) as [|q0 arrays].
  - simpl. intros [= <- <-]. split; [done|discriminate].
  - change ([] ++ [("netcdf", q0 :: arrays)]) with [("netcdf", q0 :: arrays)].
    cbn [length Nat.eqb for_in]. rewrite !run_bind, scenes_of_netcdf.
    destruct (for_in (q0 :: arrays) _netcdf_body ∅ fs) as [[s|e] fs1] eqn:Hnet.
    + apply netcdf_loop_Ok in Hnet as [-> ->]. intros [= <- <-].
      split; [done|]. intros scenes [= <-]. apply fmap_empty.
    + apply netcdf_loop_frame in Hnet as ->. intros [= <- <-].
      split; [done|discriminate].
Qed.

(** X12. In a directory without image files no scene is ever extracted:
    make_scenes leaves the disk as it was and a mapping it returns is
    empty; with a manifest name that is one part of a path (as the default
    scene_ids.yml is) the run either raises and writes nothing, or writes
    at [<data_path>/scenes/<name>] a manifest without entries, the flow
    mapping [{}]; and without a [scenes] directory already in place it
    raises. *)
Theorem run_without_images (rgb2gray : values -> result (ndarray float))
    (data_path : Path) (dst_filename : string) (fs : filesystem) :
  glob fs data_path "*.png" ++ glob fs data_path "*.jpg" ++ glob fs data_path "*.jpeg" = [] ->
  PurePath.plain_name dst_filename = true ->
  (make_scenes rgb2gray data_path fs).2 = fs
  ∧ (∀ scenes, (make_scenes rgb2gray data_path fs).1 = Ok scenes -> scenes = ∅)
  ∧ ((∃ e, produce_scene_ids rgb2gray data_path dst_filename fs = (Raise e, fs))
     ∨ produce_scene_ids rgb2gray data_path dst_filename fs
       = (Ok (), fs_store fs (data_path </> "scenes" </> dst_filename)
                   (File (YamlFile {| flow_style := true; items := [] |}))))
  ∧ (is_dir fs (data_path </> "scenes") = false ->
     ∃ e, produce_scene_ids rgb2gray data_path dst_filename fs = (Raise e, fs)).
Proof.
  intros Himages Hplain.
  destruct (make_scenes rgb2gray data_path fs) as [r fs1] eqn:Hrun.
  destruct (make_scenes_no_images _ _ _ _ _ Himages Hrun) as [-> Hempty].
  split; [done|]. split; [done|].
  unfold produce_scene_ids. rewrite run_bind, Hrun, joinpath_plain by done.
  destruct r as [scenes|e].
  - rewrite (Hempty scenes eq_refl).
    replace (yaml_dump ∅ false) with {| flow_style := true; items := [] |}
      by (unfold yaml_dump; by rewrite map_to_list_empty).
    unfold write_file. rewrite parent_div. split.
    + destruct (negb _); [left; by eexists|].
      destruct (is_dir fs (_ </> dst_filename)); [left; by eexists|by right].
    + intros Hno. change (data_path </> "scenes") with (data_path </> SCENE_PATH) in Hno.
      rewrite Hno. simpl. by eexists.
  - split; [left; by eexists|]. intros _. by eexists.
Qed.

Lemma run_without_images_witness :
  produce_scene_ids rgb2gray_luma ["data"] SCENE_DB_FILENAME fs_no_scene
  = (Ok (), fs_no_scene
            ++ [(["data"; "scenes"; "scene_ids.yml"],
                 File (YamlFile {| flow_style := true; items := [] |}))])
  ∧ ∃ e, produce_scene_ids rgb2gray_luma ["data"] SCENE_DB_FILENAME fs_ab
         = (Raise e, fs_ab).
Proof.
  split.
  - destruct (run_without_images rgb2gray_luma ["data"] SCENE_DB_FILENAME fs_no_scene
                eq_refl eq_refl) as (_ & _ & [[e He]|Hok] & _).
    + discriminate He.
    + exact Hok.
  - exact (proj2 (proj2 (proj2 (run_without_images rgb2gray_luma ["data"]
                                  SCENE_DB_FILENAME fs_ab eq_refl eq_refl))) eq_refl).
Defined.

(** ** The comparison at its edges *)

Lemma SFcompare_refl (s : SpecFloat.spec_float) :
  SpecFloat.SFcompare s s = None ∨ SpecFloat.SFcompare s s = Some Eq.
Proof.
  destruct s as [[]|[]| |[] m e]; simpl; auto;
    rewrite Z.compare_refl, Pos.compare_cont_refl; auto.
Qed.

Lemma ltb_irrefl (x : float) : (x <? x)%float = false.
Proof.
  rewrite FloatAxioms.ltb_spec. unfold SpecFloat.SFltb.
  by destruct (SFcompare_refl (Prim2SF x)) as [-> | ->].
Qed.

Lemma is_nan_Prim2SF (x : float) :
  PrimFloat.is_nan x = true -> Prim2SF x = SpecFloat.S754_nan.
Proof.
  unfold PrimFloat.is_nan. rewrite FloatAxioms.eqb_spec. unfold SpecFloat.SFeqb.
  destruct (Prim2SF x) as [[]|[]| |[] m e]; simpl; try discriminate; try done;
    rewrite Z.compare_refl, Pos.compare_cont_refl; discriminate.
Qed.

Lemma ltb_nan_r (x y : float) : PrimFloat.is_nan y = true -> (x <? y)%float = false.
Proof.
  intros Hy%is_nan_Prim2SF. rewrite FloatAxioms.ltb_spec, Hy.
  by destruct (Prim2SF x) as [[]|[]| |[] m e].
Qed.

Lemma ltb_nan_l (x y : float) : PrimFloat.is_nan x = true -> (x <? y)%float = false.
Proof. intros Hx%is_nan_Prim2SF. by rewrite FloatAxioms.ltb_spec, Hx. Qed.

(** X13. The edges of the threshold comparison, for every threshold and
    every grey image: an element equal to the threshold is not cloud, a
    NaN element is not cloud, and with a NaN threshold nothing is
    cloud. *)
Theorem threshold_mask_edges (image_grey : ndarray float) (threshold : float)
    (idx : list nat) (g : float) :
  nd_get image_grey idx = Some g ->
  g = threshold ∨ PrimFloat.is_nan g = true ∨ PrimFloat.is_nan threshold = true ->
  nd_get (threshold_mask image_grey threshold) idx = Some false.
Proof.
  intros Hg Hedge. unfold threshold_mask. rewrite nd_get_nd_map, Hg. simpl.
  f_equal. destruct Hedge as [->|[Hnan|Hnan]].
  - apply ltb_irrefl.
  - by apply ltb_nan_r.
  - by apply ltb_nan_l.
Qed.

Lemma threshold_mask_edges_witness :
  nd_get (threshold_mask (Axis [Axis [Item 0.1; Item 0.2; Item 0.3; Item nan]])%float
                         greyscale_threshold_default) [0; 1] = Some false
  ∧ nd_get (threshold_mask (Axis [Axis [Item 0.1; Item 0.2; Item 0.3; Item nan]])%float
                           greyscale_threshold_default) [0; 3] = Some false.
Proof.
  split.
  - apply (threshold_mask_edges _ _ [0; 1] 0.2%float); [reflexivity|by left].
  - apply (threshold_mask_edges _ _ [0; 3] nan); [reflexivity|right; by left].
Defined.

(** ** The mask helper and the pipeline *)

(** X14. The mask stored for an image is the one [rgb_greyscale_mask]
    computes: after a successful [_make_image_scene] the scene file holds
    the array that the helper of masks.py returns for the image at the
    default threshold. *)
Theorem scene_file_is_rgb_greyscale_mask
    (rgb2gray : values -> result (ndarray float))
    (fs : filesystem) (filepath : Path) (image : ndarray Z)
    (image_grey : ndarray float) :
  fs_lookup fs filepath = Some (File (ImageFile image)) ->
  rgb2gray (IntValues image) = Ok image_grey ->
  (∀ q, q ∈ ancestors_and_self (PurePath.parent filepath </> "scenes") ->
        is_file fs q = false) ->
  is_dir fs (scene_path filepath) = false ->
  ∃ da_cloudmask : DataArray,
    rgb_greyscale_mask rgb2gray (DataArray_of (IntValues image))
                       greyscale_threshold_default
    = Ok da_cloudmask
    ∧ fs_lookup (_make_image_scene rgb2gray filepath greyscale_threshold_default fs).2
                (scene_path filepath)
      = Some (File (NetcdfFile da_cloudmask)).
Proof.
  intros Himage Hgrey Hfree Hnodir.
  rewrite (make_image_scene_run rgb2gray fs filepath image image_grey
             greyscale_threshold_default Himage Hgrey Hfree Hnodir).
  eexists. split.
  - unfold rgb_greyscale_mask. simpl. rewrite Hgrey. reflexivity.
  - apply fs_lookup_store_eq.
Qed.

Lemma scene_file_is_rgb_greyscale_mask_witness :
  ∃ da_cloudmask : DataArray,
    rgb_greyscale_mask rgb2gray_luma (DataArray_of (IntValues two_pixels))
                       greyscale_threshold_default
    = Ok da_cloudmask
    ∧ fs_lookup (_make_image_scene rgb2gray_luma ["data"; "foo.png"]
                   greyscale_threshold_default fs_foo).2
                ["data"; "scenes"; "foo.nc"]
      = Some (File (NetcdfFile da_cloudmask)).
Proof.
  refine (scene_file_is_rgb_greyscale_mask rgb2gray_luma fs_foo ["data"; "foo.png"]
            two_pixels
            (Axis [Axis [Item (luma (uint8_to_float 10) (uint8_to_float 20) (uint8_to_float 30));
                         Item (luma (uint8_to_float 200) (uint8_to_float 220) (uint8_to_float 240))]])
            eq_refl eq_refl _ eq_refl).
  by apply existsb_is_file_false.
Defined.

(** ** Extracting again *)

Lemma fs_store_idem fs p n : fs_store (fs_store fs p n) p n = fs_store fs p n.
Proof.
  induction fs as [|[q m] fs IH]; simpl.
  - by rewrite decide_True.
  - destruct (decide (q = p)) as [->|Hne]; simpl.
    + by rewrite decide_True.
    + rewrite decide_False by done. by rewrite IH.
Qed.

Lemma mkdir_steps_noop qs fs :
  (∀ q, q ∈ qs -> is_dir fs q = true) -> foldl mkdir_step fs qs = fs.
Proof.
  induction qs as [|q qs IH]; intros Hdirs; simpl; [done|].
  unfold mkdir_step at 2. rewrite Hdirs by by left.
  apply IH. intros q' Hq'. apply Hdirs. by right.
Qed.

Lemma is_dir_not_file fs q : is_dir fs q = true -> is_file fs q = false.
Proof.
  unfold is_dir, is_file. destruct q; [done|].
  by destruct (fs_lookup fs _) as [[|data]|].
Qed.

Lemma is_dir_of_file fs p data :
  p ≠ [] -> fs_lookup fs p = Some (File data) -> is_dir fs p = false.
Proof. intros Hp Hfile. unfold is_dir. destruct p; [done|]. by rewrite Hfile. Qed.

Lemma nil_not_ancestor (p : Path) : [] ∉ ancestors_and_self p.
Proof.
  unfold ancestors_and_self. intros (n & Hn & Hin)%list_elem_of_fmap.
  apply elem_of_seq in Hin. destruct p; [simpl in Hin; lia|discriminate].
Qed.

(* a source file that is there is not in the way of its scene *)
Lemma source_not_in_the_way fs filepath data :
  fs_lookup fs filepath = Some (File data) ->
  (∀ q, q ∈ ancestors_and_self (PurePath.parent filepath </> SCENE_PATH) ->
        is_file fs q = false) ->
  filepath ∉ ancestors_and_self (scene_path filepath).
Proof.
  intros Hfile Hfree [Hin|Heq]%ancestors_and_self_div_inv.
  - destruct filepath as [|c filepath]; [by apply nil_not_ancestor in Hin|].
    specialize (Hfree _ Hin). unfold is_file in Hfree. by rewrite Hfile in Hfree.
  - apply (f_equal length) in Heq. unfold PurePath.div in Heq.
    rewrite !length_app in Heq. simpl in Heq.
    unfold PurePath.parent in Heq. destruct filepath as [|c filepath] using rev_ind.
    + simpl in Heq. lia.
    + rewrite removelast_last, length_app in Heq. simpl in Heq. lia.
Qed.

(** X15. Extracting the scene of an image a second time changes nothing:
    after a successful [_make_image_scene], the same call on the disk it
    left returns the same scene id and path and leaves the same disk. *)
Theorem image_extraction_idempotent (rgb2gray : values -> result (ndarray float))
    (fs : filesystem) (filepath : Path) (threshold : float)
    (image : ndarray Z) (image_grey : ndarray float) :
  fs_lookup fs filepath = Some (File (ImageFile image)) ->
  rgb2gray (IntValues image) = Ok image_grey ->
  (∀ q, q ∈ ancestors_and_self (PurePath.parent filepath </> "scenes") ->
        is_file fs q = false) ->
  is_dir fs (scene_path filepath) = false ->
  _make_image_scene rgb2gray filepath threshold
    (_make_image_scene rgb2gray filepath threshold fs).2
  = _make_image_scene rgb2gray filepath threshold fs.
Proof.
  intros Himage Hgrey Hfree Hnodir.
  pose proof (make_image_scene_run rgb2gray fs filepath image image_grey threshold
                Himage Hgrey Hfree Hnodir) as Hrun.
  fold (scene_path filepath) in Hrun.
  set (scenes := PurePath.parent filepath </> SCENE_PATH) in *.
  set (data := File (NetcdfFile (DataArray_of
                 (BoolValues (threshold_mask image_grey threshold))))) in *.
  set (fs1 := fs_store (foldl mkdir_step fs (ancestors_and_self scenes))
                       (scene_path filepath) data) in *.
  rewrite Hrun. simpl.
  assert (Hdirs : ∀ q, q ∈ ancestors_and_self scenes -> is_dir fs1 q = true).
  { intros q Hq. unfold fs1. rewrite is_dir_store_ne.
    - apply mkdir_steps_is_dir. by left.
    - intros <-. apply ancestors_and_self_length in Hq.
      change (scene_path filepath)
        with (scenes ++ [PurePath.stem filepath +:+ ".nc"]) in Hq.
      rewrite length_app in Hq. simpl in Hq. lia. }
  rewrite (make_image_scene_run rgb2gray fs1 filepath image image_grey threshold).
  - fold (scene_path filepath). fold scenes. fold data.
    rewrite (mkdir_steps_noop _ fs1 Hdirs). unfold fs1 at 1.
    by rewrite fs_store_idem.
  - rewrite <- Himage. eapply make_image_scene_frame; [exact Hrun|].
    by eapply source_not_in_the_way.
  - done.
  - intros q Hq. by apply is_dir_not_file, Hdirs.
  - fold (scene_path filepath). eapply is_dir_of_file.
    + unfold scene_path, PurePath.div. intros [_ ?]%app_eq_nil. discriminate.
    + unfold fs1, data. apply fs_lookup_store_eq.
Qed.

Lemma image_extraction_idempotent_witness :
  _make_image_scene rgb2gray_luma ["data"; "foo.png"] greyscale_threshold_default
    (_make_image_scene rgb2gray_luma ["data"; "foo.png"] greyscale_threshold_default
       fs_foo).2
  = _make_image_scene rgb2gray_luma ["data"; "foo.png"] greyscale_threshold_default
      fs_foo.
Proof.
  refine (image_extraction_idempotent rgb2gray_luma fs_foo ["data"; "foo.png"]
            greyscale_threshold_default two_pixels
            (Axis [Axis [Item (luma (uint8_to_float 10) (uint8_to_float 20) (uint8_to_float 30));
                         Item (luma (uint8_to_float 200) (uint8_to_float 220) (uint8_to_float 240))]])
            eq_refl eq_refl _ eq_refl).
  by apply existsb_is_file_false.
Defined.

(** ** netCDF files and the fate of the run *)

(* a successful loop over netCDF files: every extraction returned *)
Lemma netcdf_loop_Ok_each filepaths scenes fs scenes' fs' :
  for_in filepaths _netcdf_body scenes fs = (Ok scenes', fs') ->
  ∀ q, q ∈ filepaths -> ∃ new, _make_netcdf_scenes q fs = (Ok new, fs).
Proof.
  revert scenes. induction filepaths as [|filepath filepaths IH]; intros scenes; simpl.
  - by intros _ q ?%elem_of_nil.
  - rewrite run_bind.
    destruct (_netcdf_body filepath scenes fs) as [[scenes1|e] fs1] eqn:Hbody;
      [|discriminate].
    apply netcdf_body_frame in Hbody as Hfs. subst fs1.
    intros Hrest q [->|Hq]%elem_of_cons; [|by eapply IH].
    revert Hbody. unfold _netcdf_body. rewrite run_bind.
    destruct (_make_netcdf_scenes filepath fs) as [[new|e] fs1] eqn:Hnew;
      [|discriminate].
    apply make_netcdf_scenes_inert in Hnew as Hfs. destruct Hfs as [-> _].
    by eexists.
Qed.

(* a successful collection of scenes went through the netCDF files on the
   disk that the images left *)
Lemma scenes_loop_Ok_netcdf rgb2gray data_path fs paths fs1 :
  for_in (filepaths_by_filetype fs data_path) (_scenes_of_filetype rgb2gray) ∅ fs
  = (Ok paths, fs1) ->
  for_in (glob fs data_path "*.nc" ++ glob fs data_path "*.nc4") _netcdf_body paths fs1
  = (Ok paths, fs1).
Proof.
  rewrite filepaths_by_filetype_eq. cbv zeta.
  destruct (glob fs data_path "*.png" ++ _) as [|p0 images],
    (glob fs data_path "*.nc" ++ _) as [|q0 arrays]; simpl app.
  - by intros [= <- <-].
  - cbn [for_in]. rewrite run_bind, scenes_of_netcdf.
    destruct (for_in (q0 :: arrays) _netcdf_body ∅ fs) as [[s|e] fs2] eqn:Hnet;
      [|discriminate].
    apply netcdf_loop_Ok in Hnet as Hsame. destruct Hsame as [-> ->].
    by intros [= <- <-].
  - cbn [for_in]. rewrite !run_bind, scenes_of_image.
    destruct (for_in (p0 :: images) (_image_body rgb2gray) ∅ fs) as [[s'|e] fs3];
      [|discriminate].
    by intros [= <- <-].
  - cbn [for_in]. rewrite !run_bind, scenes_of_image.
    destruct (for_in (p0 :: images) (_image_body rgb2gray) ∅ fs) as [[s'|e] fs3];
      [|discriminate].
    rewrite run_bind, scenes_of_netcdf.
    destruct (for_in (q0 :: arrays) _netcdf_body s' fs3) as [[s''|e] fs4] eqn:Hnet;
      [|discriminate].
    apply netcdf_loop_Ok in Hnet as Hsame. destruct Hsame as [-> ->].
    by intros [= <- <-].
Qed.

(* the collection of scenes leaves the discovered files as they were *)
Lemma make_scenes_keeps_sources rgb2gray data_path fs r fs1 entry q :
  make_scenes rgb2gray data_path fs = (r, fs1) ->
  entry ∈ filepaths_by_filetype fs data_path -> q ∈ entry.2 ->
  fs_lookup fs1 q = fs_lookup fs q.
Proof.
  intros Hrun Hentry Hq.
  destruct (filepaths_by_filetype_elem _ _ _ _ Hentry Hq)
    as (_ & _ & Hne & Hparent & base & ext & Hext & Hname).
  apply path_split in Hne as Hsplit. rewrite Hparent, Hname in Hsplit.
  eapply make_scenes_frame_outside; [| |exact Hrun].
  - intros [Hanc|Heq]%ancestors_and_self_div_inv.
    + apply ancestors_and_self_length in Hanc. rewrite Hsplit in Hanc.
      unfold PurePath.div in Hanc. rewrite length_app in Hanc. simpl in Hanc. lia.
    + rewrite Hsplit in Heq. apply app_inj_tail in Heq as [_ Heq].
      symmetry in Heq. by eapply scenes_not_recognized.
  - intros x Heq. apply (f_equal length) in Heq. rewrite Hsplit in Heq.
    unfold PurePath.div in Heq. rewrite !length_app in Heq. simpl in Heq. lia.
Qed.

Lemma netcdf_entry_found fs data_path q :
  q ∈ glob fs data_path "*.nc" ++ glob fs data_path "*.nc4" ->
  ∃ entry, entry ∈ filepaths_by_filetype fs data_path ∧ q ∈ entry.2.
Proof.
  intros Hq. rewrite filepaths_by_filetype_eq. cbv zeta.
  destruct (glob fs data_path "*.nc" ++ _) as [|q0 arrays] eqn:Harrays;
    [by apply elem_of_nil in Hq|].
  exists ("netcdf", q0 :: arrays). split; [|done].
  apply elem_of_app. right. by left.
Qed.

(** X16. One netCDF file that holds anything dooms the run: when some
    discovered netCDF file opens as an array for which the generator does
    anything but stop at once (it yields a scene or raises), then, whatever
    else the directory holds, make_scenes and the run raise, and for a
    manifest name that is one part of a path and not of the form
    [base.nc] (as the default scene_ids.yml) the manifest path is as it
    was. *)
Theorem netcdf_file_with_scenes_fails_run
    (rgb2gray : values -> result (ndarray float))
    (data_path : Path) (dst_filename : string) (fs : filesystem)
    (q : Path) (da : DataArray) :
  q ∈ glob fs data_path "*.nc" ++ glob fs data_path "*.nc4" ->
  fs_lookup fs q = Some (File (NetcdfFile da)) ->
  _individual_scenes_in_file q da ≠ StopIteration ->
  (∃ e, (make_scenes rgb2gray data_path fs).1 = Raise e)
  ∧ (∃ e, (produce_scene_ids rgb2gray data_path dst_filename fs).1 = Raise e)
  ∧ (PurePath.plain_name dst_filename = true ->
     (∀ base, dst_filename ≠ base +:+ ".nc") ->
     fs_lookup (produce_scene_ids rgb2gray data_path dst_filename fs).2
               (PurePath.joinpath (data_path </> "scenes") dst_filename)
     = fs_lookup fs (PurePath.joinpath (data_path </> "scenes") dst_filename)).
Proof.
  intros Hq Hfile Hgen.
  assert (Hfail : ∃ e, (make_scenes rgb2gray data_path fs).1 = Raise e).
  { destruct (make_scenes rgb2gray data_path fs) as [[scenes|e] fs1] eqn:Hrun;
      [exfalso|by eexists].
    destruct (netcdf_entry_found _ _ _ Hq) as (entry & Hentry & Hin).
    pose proof (make_scenes_keeps_sources _ _ _ _ _ _ _ Hrun Hentry Hin) as Hkept.
    apply make_scenes_Ok in Hrun as (paths & Hloop & _).
    apply scenes_loop_Ok_netcdf in Hloop.
    destruct (netcdf_loop_Ok_each _ _ _ _ _ Hloop q Hq) as [new Hnew].
    revert Hnew. unfold _make_netcdf_scenes. rewrite run_bind.
    unfold open_dataarray at 1. rewrite Hkept, Hfile.
    destruct (_individual_scenes_in_file q da) as [|scene next|e]; [done|..].
    - simpl. rewrite run_bind, netcdf_scene_body_raises. discriminate.
    - discriminate. }
  split; [done|].
  destruct Hfail as [e He].
  destruct (make_scenes rgb2gray data_path fs) as [r fs1] eqn:Hrun.
  simpl in He. subst r.
  pose proof (produce_scene_ids_raise _ _ dst_filename _ _ _ Hrun) as Hprod.
  split; [rewrite Hprod; by eexists|].
  intros Hplain Hdst. rewrite Hprod, joinpath_plain by done. simpl.
  by eapply make_scenes_frame.
Qed.

Lemma netcdf_file_with_scenes_fails_run_witness :
  (∃ e, (produce_scene_ids rgb2gray_luma ["data"] SCENE_DB_FILENAME
           (fs_foo ++ [(["data"; "cube.nc"], File (NetcdfFile da_ab))])).1 = Raise e)
  ∧ fs_lookup (produce_scene_ids rgb2gray_luma ["data"] SCENE_DB_FILENAME
                 (fs_foo ++ [(["data"; "cube.nc"], File (NetcdfFile da_ab))])).2
              ["data"; "scenes"; "scene_ids.yml"]
    = None.
Proof.
  destruct (netcdf_file_with_scenes_fails_run rgb2gray_luma ["data"] SCENE_DB_FILENAME
              (fs_foo ++ [(["data"; "cube.nc"], File (NetcdfFile da_ab))])
              ["data"; "cube.nc"] da_ab) as (_ & Hraise & Hmanifest).
  - change (["data"; "cube.nc"] ∈ [["data"; "cube.nc"]]). by left.
  - reflexivity.
  - discriminate.
  - split; [exact Hraise|]. exact (Hmanifest eq_refl SCENE_DB_FILENAME_not_nc).
Defined.

(** ** No rollback *)

(* a scene file in place survives a further extraction to its path,
   whatever the outcome *)
Lemma make_image_scene_keeps_scene rgb2gray filepath threshold fs r fs' :
  _make_image_scene rgb2gray filepath threshold fs = (r, fs') ->
  (∃ da, fs_lookup fs (scene_path filepath) = Some (File (NetcdfFile da))) ->
  ∃ da, fs_lookup fs' (scene_path filepath) = Some (File (NetcdfFile da)).
Proof.
  intros Hrun Hscene. revert Hrun. unfold _make_image_scene.
  rewrite run_bind. unfold imread at 1.
  destruct (fs_lookup fs filepath) as [[|[image|da|doc|raw]]|];
    try (by intros [= <- <-]).
  rewrite run_bind. unfold lift at 1.
  destruct (rgb2gray (IntValues image)) as [image_grey|e]; [|by intros [= <- <-]].
  rewrite run_bind, parent_div.
  unfold mkdir at 1. destruct (existsb _ _); [by intros [= <- <-]|].
  rewrite run_bind. unfold to_netcdf, write_file at 1.
  assert (Hkept : fs_lookup (foldl mkdir_step fs
                    (ancestors_and_self (PurePath.parent filepath </> SCENE_PATH)))
                    (scene_path filepath)
                  = fs_lookup fs (scene_path filepath)).
  { apply mkdir_steps_other. intros Hin%ancestors_and_self_length.
    unfold scene_path, PurePath.div in Hin. rewrite !length_app in Hin.
    simpl in Hin. lia. }
  destruct (negb _); [intros [= <- <-]; by rewrite Hkept|].
  destruct (is_dir _ _); [intros [= <- <-]; by rewrite Hkept|].
  intros [= <- <-]. eexists. apply fs_lookup_store_eq.
Qed.

Lemma image_body_keeps_scene rgb2gray filepath scenes fs r fs' fp :
  PurePath.parent fp = PurePath.parent filepath ->
  _image_body rgb2gray filepath scenes fs = (r, fs') ->
  (∃ da, fs_lookup fs (scene_path fp) = Some (File (NetcdfFile da))) ->
  ∃ da, fs_lookup fs' (scene_path fp) = Some (File (NetcdfFile da)).
Proof.
  intros Hparent Hbody Hscene.
  destruct (decide (scene_path fp ∈ ancestors_and_self (scene_path filepath)))
    as [Hin|Hout].
  - apply ancestors_and_self_full in Hin;
      [|unfold scene_path, PurePath.div; by rewrite !length_app, Hparent].
    rewrite Hin in *. revert Hbody. unfold _image_body. rewrite run_bind.
    destruct (_make_image_scene _ _ _ fs) as [[[scene_id filepath_scene]|e] fs1] eqn:Hrun.
    + intros ->%setitem_frame. by eapply make_image_scene_keeps_scene.
    + intros [= <- <-]. by eapply make_image_scene_keeps_scene.
  - destruct Hscene as [da Hda]. exists da. rewrite <- Hda.
    by eapply image_body_frame.
Qed.

(** X17. There is no rollback between images: when the loop over the
    images of a directory raises at some image, the loop ends with that
    exception and the scene files of all the images before it are still
    on the disk. *)
Theorem failed_image_loop_keeps_scenes
    (rgb2gray : values -> result (ndarray float)) (data_path : Path)
    (before : list Path) (filepath : Path) (after : list Path)
    (scenes0 scenes : gmap string Path) (fs0 fs1 fs2 : filesystem) (e : exn) :
  (∀ fp, fp ∈ before ++ [filepath] -> PurePath.parent fp = data_path) ->
  for_in before (_image_body rgb2gray) scenes0 fs0 = (Ok scenes, fs1) ->
  _image_body rgb2gray filepath scenes fs1 = (Raise e, fs2) ->
  for_in (before ++ filepath :: after) (_image_body rgb2gray) scenes0 fs0
  = (Raise e, fs2)
  ∧ ∀ fp, fp ∈ before ->
          ∃ da, fs_lookup fs2 (data_path </> "scenes" </> (PurePath.stem fp +:+ ".nc"))
                = Some (File (NetcdfFile da)).
Proof.
  intros Hparent Hbefore Hbody. split; [by eapply for_in_raise|].
  intros fp Hfp.
  assert (Hp : PurePath.parent fp = data_path)
    by (apply Hparent, elem_of_app; by left).
  assert (Hp' : PurePath.parent filepath = data_path)
    by (apply Hparent, elem_of_app; right; by left).
  replace (data_path </> "scenes" </> (PurePath.stem fp +:+ ".nc"))
    with (scene_path fp) by (unfold scene_path; by rewrite Hp).
  eapply image_body_keeps_scene; [|exact Hbody|].
  - by rewrite Hp, Hp'.
  - eapply image_loop_files; [|exact Hbefore|done].
    intros fp' Hfp'. apply Hparent, elem_of_app. by left.
Qed.

Lemma failed_image_loop_keeps_scenes_witness :
  for_in [["data"; "foo.png"]; ["data"; "foo.jpg"]] (_image_body rgb2gray_luma) ∅
         fs_foo_twice
  = (Raise (KeyExistsException "foo"),
     (for_in [["data"; "foo.png"]; ["data"; "foo.jpg"]] (_image_body rgb2gray_luma) ∅
             fs_foo_twice).2)
  ∧ ∃ da, fs_lookup (for_in [["data"; "foo.png"]; ["data"; "foo.jpg"]]
                            (_image_body rgb2gray_luma) ∅ fs_foo_twice).2
                    ["data"; "scenes"; "foo.nc"]
          = Some (File (NetcdfFile da)).
Proof.
  destruct (failed_image_loop_keeps_scenes rgb2gray_luma ["data"]
              [["data"; "foo.png"]] ["data"; "foo.jpg"] []
              ∅ {["foo" := ["data"; "scenes"; "foo.nc"]]}
              fs_foo_twice
              (_image_body rgb2gray_luma ["data"; "foo.png"] ∅ fs_foo_twice).2
              (for_in [["data"; "foo.png"]; ["data"; "foo.jpg"]]
                      (_image_body rgb2gray_luma) ∅ fs_foo_twice).2
              (KeyExistsException "foo")) as [Hloop Hfiles].
  - intros fp Hfp. change (fp ∈ [["data"; "foo.png"]; ["data"; "foo.jpg"]]) in Hfp.
    apply elem_of_cons in Hfp as [->|Hfp]; [reflexivity|].
    apply list_elem_of_singleton in Hfp as ->. reflexivity.
  - reflexivity.
  - reflexivity.
  - split; [exact Hloop|]. apply (Hfiles ["data"; "foo.png"]). by left.
Defined.
